(** * Importable-pool listing of go-zfs: the block scanner and its driver

    A shallow embedding of [ExportedZpool.parseLines], [ListExportedZpools]
    and [ExportedZpool.Import] (the current parser) and of the earlier
    parser kept in [zpool.go], with the properties of the specification
    that concern them. *)

From Stdlib Require Import String Ascii List Arith Bool Lia NArith.
From Stdlib Require Floats.
From stdpp Require Import base option list.
From Equations Require Import Equations.
Import ListNotations.

Local Open Scope string_scope.
Local Open Scope list_scope.

(** ** Go strings *)

(** [strings.Join(elems, sep)]. *)
Definition Join (elems : list string) (sep : string) : string :=
  String.concat sep elems.

(** [strings.Split(s, sep)] for a separator of one byte: the fields
    between the occurrences of the separator, never an empty slice. *)
Fixpoint Split (s : string) (sep : ascii) : list string :=
  match s with
  | EmptyString => [EmptyString]
  | String c rest =>
      if Ascii.eqb c sep then EmptyString :: Split rest sep
      else match Split rest sep with
           | field :: fields => String c field :: fields
           | [] => [String c EmptyString]
           end
  end.

(** [strings.HasPrefix(s, prefix)]. *)
Fixpoint HasPrefix (s prefix : string) : bool :=
  match prefix, s with
  | EmptyString, _ => true
  | String _ _, EmptyString => false
  | String p prefix', String c s' => Ascii.eqb c p && HasPrefix s' prefix'
  end.

(** [strings.Contains(s, substr)]. *)
Fixpoint Contains (s substr : string) : bool :=
  HasPrefix s substr ||
  match s with
  | EmptyString => false
  | String _ s' => Contains s' substr
  end.

(** ** Outcome of a Go computation

    An index expression out of range stops the program with a run-time
    panic; nothing of the interrupted call is returned. *)
Inductive outcome (A : Type) : Type :=
| Done (a : A)
| IndexOutOfRange (index len : nat).
Arguments Done {A} a.
Arguments IndexOutOfRange {A} index len.

#[global] Instance outcome_ret : MRet outcome := fun A a => Done a.
#[global] Instance outcome_bind : MBind outcome := fun A B f m =>
  match m with
  | Done a => f a
  | IndexOutOfRange i n => IndexOutOfRange i n
  end.

(** [s[i]] on a slice. *)
Definition at_index {A : Type} (s : list A) (i : nat) : outcome A :=
  match s !! i with
  | Some x => Done x
  | None => IndexOutOfRange i (length s)
  end.

(** ** Data model *)

(** Modelled from the spec: the type [Vdev], declared in a file of the
    package that is not among the sources.  A device has a name and a
    health status; these are the two fields the parsers assign. *)
Record Vdev : Type := mkVdev { Vdev_Name : string; Health : string }.

(** Modelled from the spec: the type [VdevGroup], declared outside the
    sources: a group descriptor, shaped like a device, and the ordered
    sequence of the member devices. *)
Record VdevGroup : Type := mkVdevGroup { Group : Vdev; Devices : list Vdev }.

(** The [VdevGroup] objects allocated so far; an address is a position. *)
Abbreviation addr := nat (only parsing).
Abbreviation heap := (list VdevGroup) (only parsing).

(** [&VdevGroup{...}] *)
Definition alloc (h : heap) (g : VdevGroup) : addr * heap :=
  (length h, h ++ [g]).

(** [p.Devices = append(p.Devices, device)] *)
Definition append_device (device : Vdev) (g : VdevGroup) : VdevGroup :=
  {| Group := Group g; Devices := Devices g ++ [device] |}.

(** The tokenized lines the command runner hands back. *)
Abbreviation line := (list string) (only parsing).

(** The collaborators the parser calls and that live in other files of
    the package. *)
Class Helpers : Type := {
  IsVdevGroup : string -> bool;
  ResolveDeviceName : string -> string;
  (** [setString(&field, value)] as a function from the old content of
      the field and the value to the new content *)
  setString : string -> string -> string
}.

(** ** The importable-pool record (current parser)

    The source disagrees with itself about [Vdevs].  Line 143 declares
    [Vdevs []VdevGroup], a slice of values; lines 204 and 212 append the
    pointer [curVdevGroup] to it, and line 218 goes on appending devices
    through that pointer.  The two do not type-check together, and the file
    does not say which of them is meant.  This record and the scanner of
    Section [Scanner] take the statements as they are written: the entries
    of [Vdevs] are addresses of heap objects shared with the scanner.
    Module [Declared] below takes the declaration as it is written.  The
    two readings differ in nothing but what the entries of [Vdevs] show
    ([Declared_body_agrees]); what is said of the entries is said for each
    reading by name. *)
Record ExportedZpool : Type := mkExportedZpool {
  Name : string;
  Id : string;
  State : string;
  Status : string;
  Action : string;
  Vdevs : list addr
}.

(** [&ExportedZpool{}] *)
Definition emptyExportedZpool : ExportedZpool :=
  mkExportedZpool "" "" "" "" "" [].

Definition with_Name (v : string) (z : ExportedZpool) : ExportedZpool :=
  mkExportedZpool v (Id z) (State z) (Status z) (Action z) (Vdevs z).
Definition with_Id (v : string) (z : ExportedZpool) : ExportedZpool :=
  mkExportedZpool (Name z) v (State z) (Status z) (Action z) (Vdevs z).
Definition with_State (v : string) (z : ExportedZpool) : ExportedZpool :=
  mkExportedZpool (Name z) (Id z) v (Status z) (Action z) (Vdevs z).
Definition with_Status (v : string) (z : ExportedZpool) : ExportedZpool :=
  mkExportedZpool (Name z) (Id z) (State z) v (Action z) (Vdevs z).
Definition with_Action (v : string) (z : ExportedZpool) : ExportedZpool :=
  mkExportedZpool (Name z) (Id z) (State z) (Status z) v (Vdevs z).
Definition with_Vdevs (v : list addr) (z : ExportedZpool) : ExportedZpool :=
  mkExportedZpool (Name z) (Id z) (State z) (Status z) (Action z) v.

(** The variables of one run of [parseLines]: the record behind the
    receiver, the heap, and the locals. *)
Record scan : Type := mkScan {
  ez : ExportedZpool;
  objs : heap;
  curVdevGroup : option addr;
  actionFound : bool;
  configFound : bool;
  loc : nat
}.

Definition on_ez (f : ExportedZpool -> ExportedZpool) (s : scan) : scan :=
  mkScan (f (ez s)) (objs s) (curVdevGroup s) (actionFound s) (configFound s) (loc s).
Definition set_actionFound (b : bool) (s : scan) : scan :=
  mkScan (ez s) (objs s) (curVdevGroup s) b (configFound s) (loc s).
Definition set_configFound (b : bool) (s : scan) : scan :=
  mkScan (ez s) (objs s) (curVdevGroup s) (actionFound s) b (loc s).
Definition next_loc (s : scan) : scan :=
  mkScan (ez s) (objs s) (curVdevGroup s) (actionFound s) (configFound s) (loc s + 1).

(** [curVdevGroup = &VdevGroup{...}; ez.Vdevs = append(ez.Vdevs, curVdevGroup)] *)
Definition open_group (g : VdevGroup) (s : scan) : scan :=
  let '(p, h) := alloc (objs s) g in
  mkScan (with_Vdevs (Vdevs (ez s) ++ [p]) (ez s)) h (Some p)
         (actionFound s) (configFound s) (loc s).

(** [curVdevGroup.Devices = append(curVdevGroup.Devices, device)]; the
    pointer is never nil where the source does this. *)
Definition add_device (device : Vdev) (s : scan) : scan :=
  match curVdevGroup s with
  | Some p =>
      mkScan (ez s) (alter (append_device device) p (objs s)) (Some p)
             (actionFound s) (configFound s) (loc s)
  | None => s
  end.

(** What one turn of the [for] loop does next. *)
Inductive control : Type :=
| Continue (s : scan)
| Return (s : scan) (n : nat).

Section Scanner.
Context `{Helpers}.

(** The body of the loop of [parseLines], lines 167 to 220. *)
Definition body (s0 : scan) (l : line) : outcome control :=
  let s := next_loc s0 in
  match l with
  | [] => Done (Continue s)
  | tok :: tail =>
      if String.eqb tok "pool:" then Done (Return s (loc s - 1))
      else if String.eqb tok "id:" then
        v ← at_index l 1;
        Done (Continue (on_ez (fun z => with_Id (setString (Id z) v) z) s))
      else if String.eqb tok "state:" then
        Done (Continue (on_ez (fun z => with_State (setString (State z) (Join tail " ")) z) s))
      else if String.eqb tok "status:" then
        Done (Continue (on_ez (fun z => with_Status (setString (Status z) (Join tail " ")) z) s))
      else if String.eqb tok "action:" then
        Done (Continue (set_actionFound true
          (on_ez (fun z => with_Action (setString (Action z) (Join tail " ")) z) s)))
      else if String.eqb tok (Name (ez s)) then Done (Continue s)
      else if String.eqb tok "config:" then Done (Continue (set_configFound true s))
      else if actionFound s && negb (configFound s) then
        Done (Continue (set_actionFound false
          (on_ez (fun z => with_Action (Action z ++ " " ++ Join l " ") z) s)))
      else if IsVdevGroup (hd "" (Split tok "-")) then
        health ← at_index l 1;
        Done (Continue (open_group (mkVdevGroup (mkVdev (ResolveDeviceName tok) health) []) s))
      else
        let s1 := match curVdevGroup s with
                  | None => open_group (mkVdevGroup (mkVdev "fileordisk" "") []) s
                  | Some _ => s
                  end in
        health ← at_index l 1;
        Done (Continue (add_device (mkVdev (ResolveDeviceName tok) health) s1))
  end.

(** [for _, line := range lines { ... }; return loc] *)
Fixpoint loop (s : scan) (lines : list line) : outcome (scan * nat) :=
  match lines with
  | [] => Done (s, loc s)
  | l :: rest =>
      c ← body s l;
      match c with
      | Continue s' => loop s' rest
      | Return s' n => Done (s', n)
      end
  end.

(** The locals at the top of [parseLines]. *)
Definition enter (z : ExportedZpool) (h : heap) : scan :=
  mkScan z h None false false 0.

(** [func (ez *ExportedZpool) parseLines(lines [][]string) int], with the
    record and the heap it leaves behind. *)
Definition parseLines (z : ExportedZpool) (h : heap) (lines : list line)
  : outcome (ExportedZpool * heap * nat) :=
  r ← loop (enter z h) lines;
  Done (ez r.1, objs r.1, r.2).

End Scanner.

(** ** The command runner

    [zpoolOutput] starts the tool and hands back its tokenized output and
    an error.  The tool and the system it looks at are a state [W] of
    their own, threaded through the calls in program order. *)
Definition error : Type := string.

Class CommandRunner (W : Type) : Type :=
  zpoolOutput : list string -> W -> (list line * option error) * W.

(** The arguments [Import] hands to the tool, lines 147 to 154. *)
Definition importArgs (z : ExportedZpool) (tryForce : bool) : list string :=
  let importFlags := "-N" in
  let importFlags := if tryForce then (importFlags ++ "f")%string else importFlags in
  let importFlags :=
    if Contains (State z) "DESTROYED" then (importFlags ++ "D")%string else importFlags in
  ["import"; importFlags; Id z].

(** Remembers the equation of a scrutinee for a termination proof. *)
Definition inspect {A : Type} (a : A) : {b : A | a = b} := exist _ a eq_refl.

Section Listing.
Context `{Helpers} {W : Type} `{CommandRunner W}.

(** [func (ez *ExportedZpool) Import(tryForce bool) error] *)
Definition Import (z : ExportedZpool) (tryForce : bool) (w : W) : option error * W :=
  let '((_, err), w') := zpoolOutput (importArgs z tryForce) w in
  (err, w').

(** One of the two [for i := 0; i < len(out); i++] loops of
    [ListExportedZpools], from index [i] on, with the records appended so
    far. *)
Equations? collect (out : list line) (i : nat) (pools : list ExportedZpool) (h : heap)
  : outcome (list ExportedZpool * heap) by wf (length out - i) lt :=
collect out i pools h with inspect (out !! i) := {
  | exist _ None _ => Done (pools, h)
  | exist _ (Some l) _ =>
      match at_index l 0 with
      | IndexOutOfRange k n => IndexOutOfRange k n
      | Done tok =>
          if String.eqb tok "pool:" then
            match at_index l 1 with
            | IndexOutOfRange k n => IndexOutOfRange k n
            | Done name =>
                match parseLines (with_Name name emptyExportedZpool) h (drop (i + 1) out) with
                | IndexOutOfRange k n => IndexOutOfRange k n
                | Done (z, h', linesParsed) =>
                    collect out (i + linesParsed + 1) (pools ++ [z]) h'
                end
            end
          else collect out (i + 1) pools h
      end }.
Proof.
  all: assert (i < length out) by (eapply lookup_lt_Some; eauto); lia.
Qed.

(** [func ListExportedZpools() ([]*ExportedZpool, error)] *)
Definition ListExportedZpools (w : W) (h : heap)
  : outcome (list ExportedZpool * option error * heap) * W :=
  let '((out, err), w1) := zpoolOutput ["import"] w in
  match err with
  | Some e => (Done ([], Some e, h), w1)
  | None =>
      match collect out 0 [] h with
      | IndexOutOfRange k n => (IndexOutOfRange k n, w1)
      | Done (pools, h1) =>
          let '((out', err'), w2) := zpoolOutput ["import"; "-D"] w1 in
          match err' with
          | Some e => (Done ([], Some e, h1), w2)
          | None =>
              match collect out' 0 pools h1 with
              | IndexOutOfRange k n => (IndexOutOfRange k n, w2)
              | Done (pools', h2) => (Done (pools', None, h2), w2)
              end
          end
      end
  end.

End Listing.

(** ** The earlier parser, [zpool.go]

    Here [Vdevs] holds [VdevGroup] values: [append(ez.Vdevs, *curVdevGroup)]
    stores a copy of the object behind the pointer, and the devices that
    follow are appended to the object, not to the copy.  The [log.Println]
    calls write to the standard error stream, which is not part of the
    model; the index expressions they evaluate are. *)
Module Superseded.

Record ExportedZpool : Type := mkExportedZpool {
  Name : string;
  Id : string;
  State : string;
  Status : string;
  Action : string;
  Vdevs : list VdevGroup
}.

(** [var ez ExportedZpool] *)
Definition emptyExportedZpool : ExportedZpool :=
  mkExportedZpool "" "" "" "" "" [].

Definition with_Name (v : string) (z : ExportedZpool) : ExportedZpool :=
  mkExportedZpool v (Id z) (State z) (Status z) (Action z) (Vdevs z).
Definition with_Id (v : string) (z : ExportedZpool) : ExportedZpool :=
  mkExportedZpool (Name z) v (State z) (Status z) (Action z) (Vdevs z).
Definition with_State (v : string) (z : ExportedZpool) : ExportedZpool :=
  mkExportedZpool (Name z) (Id z) v (Status z) (Action z) (Vdevs z).
Definition with_Status (v : string) (z : ExportedZpool) : ExportedZpool :=
  mkExportedZpool (Name z) (Id z) (State z) v (Action z) (Vdevs z).
Definition with_Action (v : string) (z : ExportedZpool) : ExportedZpool :=
  mkExportedZpool (Name z) (Id z) (State z) (Status z) v (Vdevs z).
Definition with_Vdevs (v : list VdevGroup) (z : ExportedZpool) : ExportedZpool :=
  mkExportedZpool (Name z) (Id z) (State z) (Status z) (Action z) v.

Record scan : Type := mkScan {
  ez : ExportedZpool;
  objs : heap;
  curVdevGroup : option addr;
  actionFound : bool;
  loc : nat
}.

Definition on_ez (f : ExportedZpool -> ExportedZpool) (s : scan) : scan :=
  mkScan (f (ez s)) (objs s) (curVdevGroup s) (actionFound s) (loc s).
Definition set_actionFound (b : bool) (s : scan) : scan :=
  mkScan (ez s) (objs s) (curVdevGroup s) b (loc s).
Definition next_loc (s : scan) : scan :=
  mkScan (ez s) (objs s) (curVdevGroup s) (actionFound s) (loc s + 1).

(** [curVdevGroup = &VdevGroup{...}; ez.Vdevs = append(ez.Vdevs, *curVdevGroup)]:
    the record receives the value the new object has at this moment. *)
Definition open_group (g : VdevGroup) (s : scan) : scan :=
  let '(p, h) := alloc (objs s) g in
  mkScan (with_Vdevs (Vdevs (ez s) ++ [g]) (ez s)) h (Some p) (actionFound s) (loc s).

(** [curVdevGroup.Devices = append(curVdevGroup.Devices, device)] *)
Definition add_device (device : Vdev) (p : addr) (s : scan) : scan :=
  mkScan (ez s) (alter (append_device device) p (objs s)) (Some p)
         (actionFound s) (loc s).

Inductive control : Type :=
| Continue (s : scan)
| Return (s : scan) (n : nat).

Section Scanner.
Context `{Helpers}.

(** The body of the loop of [parseLines], lines 158 to 201 of [zpool.go]. *)
Definition body (s0 : scan) (l : line) : outcome control :=
  let s := next_loc s0 in
  match l with
  | [] => Done (Continue s)
  | tok :: tail =>
      if String.eqb tok "pool:" then Done (Return s (loc s - 1))
      else if String.eqb tok "id:" then
        v ← at_index l 1;
        Done (Continue (on_ez (fun z => with_Id (setString (Id z) v) z) s))
      else if String.eqb tok "state:" then
        Done (Continue (on_ez (fun z => with_State (setString (State z) (Join tail " ")) z) s))
      else if String.eqb tok "status:" then
        Done (Continue (on_ez (fun z => with_Status (setString (Status z) (Join tail " ")) z) s))
      else if String.eqb tok "action:" then
        Done (Continue (set_actionFound true
          (on_ez (fun z => with_Action (setString (Action z) (Join tail " ")) z) s)))
      else if String.eqb tok (Name (ez s)) then Done (Continue s)
      else if actionFound s then
        Done (Continue (set_actionFound false
          (on_ez (fun z => with_Action (Action z ++ " " ++ Join l " ") z) s)))
      else if IsVdevGroup (hd "" (Split tok "-")) then
        health ← at_index l 1;
        Done (Continue (open_group (mkVdevGroup (mkVdev tok health) []) s))
      else
        match curVdevGroup s with
        | Some p =>
            health ← at_index l 1;
            Done (Continue (add_device (mkVdev tok health) p s))
        | None => Done (Continue s)
        end
  end.

Fixpoint loop (s : scan) (lines : list line) : outcome (scan * nat) :=
  match lines with
  | [] => Done (s, loc s)
  | l :: rest =>
      c ← body s l;
      match c with
      | Continue s' => loop s' rest
      | Return s' n => Done (s', n)
      end
  end.

Definition enter (z : ExportedZpool) (h : heap) : scan :=
  mkScan z h None false 0.

Definition parseLines (z : ExportedZpool) (h : heap) (lines : list line)
  : outcome (ExportedZpool * heap * nat) :=
  r ← loop (enter z h) lines;
  Done (ez r.1, objs r.1, r.2).

(** One of the two loops of [ListExportedZpools] in [zpool.go]: a record
    is appended on every turn, parsed or not, and the name it gets is the
    marker token [out[i][0]]. *)
Equations? collect (out : list line) (i : nat) (pools : list ExportedZpool) (h : heap)
  : outcome (list ExportedZpool * heap) by wf (length out - i) lt :=
collect out i pools h with inspect (out !! i) := {
  | exist _ None _ => Done (pools, h)
  | exist _ (Some l) _ =>
      match at_index l 0 with
      | IndexOutOfRange k n => IndexOutOfRange k n
      | Done tok =>
          if String.eqb tok "pool:" then
            match parseLines (with_Name tok emptyExportedZpool) h (drop (i + 1) out) with
            | IndexOutOfRange k n => IndexOutOfRange k n
            | Done (z, h', linesParsed) =>
                collect out (i + linesParsed + 1) (pools ++ [z]) h'
            end
          else collect out (i + 1) (pools ++ [emptyExportedZpool]) h
      end }.
Proof.
  all: assert (i < length out) by (eapply lookup_lt_Some; eauto); lia.
Qed.

Context {W : Type} `{CommandRunner W}.

Definition ListExportedZpools (w : W) (h : heap)
  : outcome (list ExportedZpool * option error * heap) * W :=
  let '((out, err), w1) := zpoolOutput ["import"] w in
  match err with
  | Some e => (Done ([], Some e, h), w1)
  | None =>
      match collect out 0 [] h with
      | IndexOutOfRange k n => (IndexOutOfRange k n, w1)
      | Done (pools, h1) =>
          let '((out', err'), w2) := zpoolOutput ["import"; "-D"] w1 in
          match err' with
          | Some e => (Done ([], Some e, h1), w2)
          | None =>
              (* log.Println(out[0][0]) *)
              match l0 ← at_index out' 0; at_index l0 0 with
              | IndexOutOfRange k n => (IndexOutOfRange k n, w2)
              | Done _ =>
                  match collect out' 0 pools h1 with
                  | IndexOutOfRange k n => (IndexOutOfRange k n, w2)
                  | Done (pools', h2) => (Done (pools', None, h2), w2)
                  end
              end
          end
      end
  end.

End Scanner.
End Superseded.

(** ** The current parser under the declared element type

    [parseLines] of [part_000] once more, with [Vdevs []VdevGroup] as line
    143 declares it.  Under that type the two statements
    [ez.Vdevs = append(ez.Vdevs, curVdevGroup)] can only append the value
    behind the pointer, as [zpool.go] writes it ([*curVdevGroup]): the
    record receives the value the object has when the group is opened.
    Everything else is the scanner of Section [Scanner], line for line. *)
Module Declared.

Record ExportedZpool : Type := mkExportedZpool {
  Name : string;
  Id : string;
  State : string;
  Status : string;
  Action : string;
  Vdevs : list VdevGroup
}.

(** [&ExportedZpool{}] *)
Definition emptyExportedZpool : ExportedZpool :=
  mkExportedZpool "" "" "" "" "" [].

Definition with_Name (v : string) (z : ExportedZpool) : ExportedZpool :=
  mkExportedZpool v (Id z) (State z) (Status z) (Action z) (Vdevs z).
Definition with_Id (v : string) (z : ExportedZpool) : ExportedZpool :=
  mkExportedZpool (Name z) v (State z) (Status z) (Action z) (Vdevs z).
Definition with_State (v : string) (z : ExportedZpool) : ExportedZpool :=
  mkExportedZpool (Name z) (Id z) v (Status z) (Action z) (Vdevs z).
Definition with_Status (v : string) (z : ExportedZpool) : ExportedZpool :=
  mkExportedZpool (Name z) (Id z) (State z) v (Action z) (Vdevs z).
Definition with_Action (v : string) (z : ExportedZpool) : ExportedZpool :=
  mkExportedZpool (Name z) (Id z) (State z) (Status z) v (Vdevs z).
Definition with_Vdevs (v : list VdevGroup) (z : ExportedZpool) : ExportedZpool :=
  mkExportedZpool (Name z) (Id z) (State z) (Status z) (Action z) v.

Record scan : Type := mkScan {
  ez : ExportedZpool;
  objs : heap;
  curVdevGroup : option addr;
  actionFound : bool;
  configFound : bool;
  loc : nat
}.

Definition on_ez (f : ExportedZpool -> ExportedZpool) (s : scan) : scan :=
  mkScan (f (ez s)) (objs s) (curVdevGroup s) (actionFound s) (configFound s) (loc s).
Definition set_actionFound (b : bool) (s : scan) : scan :=
  mkScan (ez s) (objs s) (curVdevGroup s) b (configFound s) (loc s).
Definition set_configFound (b : bool) (s : scan) : scan :=
  mkScan (ez s) (objs s) (curVdevGroup s) (actionFound s) b (loc s).
Definition next_loc (s : scan) : scan :=
  mkScan (ez s) (objs s) (curVdevGroup s) (actionFound s) (configFound s) (loc s + 1).

(** [curVdevGroup = &VdevGroup{...}], and the record receives the value
    of the new object. *)
Definition open_group (g : VdevGroup) (s : scan) : scan :=
  let '(p, h) := alloc (objs s) g in
  mkScan (with_Vdevs (Vdevs (ez s) ++ [g]) (ez s)) h (Some p)
         (actionFound s) (configFound s) (loc s).

(** [curVdevGroup.Devices = append(curVdevGroup.Devices, device)] *)
Definition add_device (device : Vdev) (s : scan) : scan :=
  match curVdevGroup s with
  | Some p =>
      mkScan (ez s) (alter (append_device device) p (objs s)) (Some p)
             (actionFound s) (configFound s) (loc s)
  | None => s
  end.

Inductive control : Type :=
| Continue (s : scan)
| Return (s : scan) (n : nat).

Section Scanner.
Context `{Helpers}.

(** The body of the loop of [parseLines], lines 167 to 220. *)
Definition body (s0 : scan) (l : line) : outcome control :=
  let s := next_loc s0 in
  match l with
  | [] => Done (Continue s)
  | tok :: tail =>
      if String.eqb tok "pool:" then Done (Return s (loc s - 1))
      else if String.eqb tok "id:" then
        v ← at_index l 1;
        Done (Continue (on_ez (fun z => with_Id (setString (Id z) v) z) s))
      else if String.eqb tok "state:" then
        Done (Continue (on_ez (fun z => with_State (setString (State z) (Join tail " ")) z) s))
      else if String.eqb tok "status:" then
        Done (Continue (on_ez (fun z => with_Status (setString (Status z) (Join tail " ")) z) s))
      else if String.eqb tok "action:" then
        Done (Continue (set_actionFound true
          (on_ez (fun z => with_Action (setString (Action z) (Join tail " ")) z) s)))
      else if String.eqb tok (Name (ez s)) then Done (Continue s)
      else if String.eqb tok "config:" then Done (Continue (set_configFound true s))
      else if actionFound s && negb (configFound s) then
        Done (Continue (set_actionFound false
          (on_ez (fun z => with_Action (Action z ++ " " ++ Join l " ") z) s)))
      else if IsVdevGroup (hd "" (Split tok "-")) then
        health ← at_index l 1;
        Done (Continue (open_group (mkVdevGroup (mkVdev (ResolveDeviceName tok) health) []) s))
      else
        let s1 := match curVdevGroup s with
                  | None => open_group (mkVdevGroup (mkVdev "fileordisk" "") []) s
                  | Some _ => s
                  end in
        health ← at_index l 1;
        Done (Continue (add_device (mkVdev (ResolveDeviceName tok) health) s1))
  end.

Fixpoint loop (s : scan) (lines : list line) : outcome (scan * nat) :=
  match lines with
  | [] => Done (s, loc s)
  | l :: rest =>
      c ← body s l;
      match c with
      | Continue s' => loop s' rest
      | Return s' n => Done (s', n)
      end
  end.

Definition enter (z : ExportedZpool) (h : heap) : scan :=
  mkScan z h None false false 0.

Definition parseLines (z : ExportedZpool) (h : heap) (lines : list line)
  : outcome (ExportedZpool * heap * nat) :=
  r ← loop (enter z h) lines;
  Done (ez r.1, objs r.1, r.2).

End Scanner.
End Declared.

(** ** Vocabulary of the specification *)

(** *** Lines and markers *)

(** [starts_with key l]: the first token of [l] is [key]. *)
Definition starts_with (key : string) (l : line) : bool :=
  match l with
  | tok :: _ => String.eqb tok key
  | [] => false
  end.

(** A block-start marker: a line whose first token is ["pool:"]. *)
Definition is_marker (l : line) : bool := starts_with "pool:" l.

(** Position of the first marker of a sequence, its length if there is
    none. *)
Fixpoint next_marker (lines : list line) : nat :=
  match lines with
  | [] => 0
  | l :: rest => if is_marker l then 0 else S (next_marker rest)
  end.

(** [n] is the 0-based index of the first marker of [lines], or their
    number when no line is a marker. *)
Definition first_marker_at (lines : list line) (n : nat) : Prop :=
  (forall k l, k < n -> lines !! k = Some l -> is_marker l = false) /\
  ((exists l, lines !! n = Some l /\ is_marker l = true) \/ n = length lines).

(** Lines on which the scanner never asks for a missing second token:
    blank lines, lines of two tokens or more, and lone tokens that the
    scanner dispatches without reading a value. *)
Definition line_ok (name : string) (l : line) : bool :=
  match l with
  | [tok] =>
      negb (String.eqb tok "id:") &&
      existsb (String.eqb tok) ["pool:"; "state:"; "status:"; "action:"; name; "config:"]
  | _ => true
  end.

(** A line of the output that the loop of the listing passes over: it
    has a first token, and the token is not the marker. *)
Definition passed_over (l : line) : bool :=
  match l with
  | tok :: _ => negb (String.eqb tok "pool:")
  | [] => false
  end.

(** *** Header fields and action text *)

(** The variables with which a turn of the loop ends. *)
Definition after (c : control) : scan :=
  match c with
  | Continue s => s
  | Return s _ => s
  end.

(** A plain free-text line as the scanner sees it: its first token is
    neither the marker, nor a header key, nor [config:], nor the name of
    the pool. *)
Definition free_text (name : string) (l : line) : bool :=
  match l with
  | tok :: _ =>
      negb (existsb (String.eqb tok)
              ["pool:"; "id:"; "state:"; "status:"; "action:"; name; "config:"])
  | [] => false
  end.

(** A plain free-text line as the specification words it: not a line of
    one of the header keys it lists, and not the echo of the pool name. *)
Definition stated_free_text (name : string) (l : line) : bool :=
  match l with
  | tok :: _ =>
      negb (existsb (String.eqb tok) ["pool:"; "id:"; "state:"; "status:"; "action:"; name])
  | [] => false
  end.

(** The header fields that only [setString] assigns. *)
Inductive header : Type := HeaderId | HeaderState | HeaderStatus.

Definition key (f : header) : string :=
  match f with
  | HeaderId => "id:"
  | HeaderState => "state:"
  | HeaderStatus => "status:"
  end.

Definition field (f : header) (z : ExportedZpool) : string :=
  match f with
  | HeaderId => Id z
  | HeaderState => State z
  | HeaderStatus => Status z
  end.

(** The value a header line carries: [line[1]] for [id:], the tokens
    after the key joined by single spaces for the others. *)
Definition value (f : header) (l : line) : string :=
  match f with
  | HeaderId => nth 1 l ""
  | HeaderState | HeaderStatus => Join (tl l) " "
  end.

(** What of the variables of a scan does not depend on the heap: the
    fields of the record other than [Vdevs], the two flags and the count. *)
Definition headers (s : scan) : ExportedZpool * bool * bool * nat :=
  (with_Vdevs [] (ez s), actionFound s, configFound s, loc s).

(** *** Groups and devices *)

(** The group and device lines of a block: the lines before the next
    marker that are neither blank, nor a header or [config:] line, nor
    the echo of the pool name, nor the continuation of the action text.
    [armed] and [config] are the two flags of the scanner. *)
Fixpoint structural (name : string) (armed config : bool) (lines : list line)
  : list line :=
  match lines with
  | [] => []
  | [] :: rest => structural name armed config rest
  | (tok :: _) as l :: rest =>
      if String.eqb tok "pool:" then []
      else if existsb (String.eqb tok) ["id:"; "state:"; "status:"] then
        structural name armed config rest
      else if String.eqb tok "action:" then structural name true config rest
      else if String.eqb tok name then structural name armed config rest
      else if String.eqb tok "config:" then structural name armed true rest
      else if armed && negb config then structural name false config rest
      else l :: structural name armed config rest
  end.

(** The group with more devices at the end of its list. *)
Definition extend (devices : list Vdev) (g : VdevGroup) : VdevGroup :=
  mkVdevGroup (Group g) (Devices g ++ devices).

(** A group header line with the device lines that follow it. *)
Definition section_lines (sec : line * list line) : list line := sec.1 :: sec.2.

(** The synthetic group of the devices that no header precedes; it
    exists only if there is such a device. *)
Definition synthetic (leading : list Vdev) : list VdevGroup :=
  match leading with
  | [] => []
  | _ :: _ => [mkVdevGroup (mkVdev "fileordisk" "") leading]
  end.

Section Grouping.
Context `{Helpers}.

(** The test the scanner applies to the first token of a structural
    line: the part before the first ["-"] is a group kind. *)
Definition group_header (l : line) : bool :=
  match l with
  | tok :: _ => IsVdevGroup (hd "" (Split tok "-"))
  | [] => false
  end.

(** Name and health a structural line gives. *)
Definition vdev_of (l : line) : Vdev :=
  mkVdev (ResolveDeviceName (hd "" l)) (nth 1 l "").

(** Reading the structural lines backwards: the devices met before the
    first group header, and each group header with the devices that follow
    it up to the next header. *)
Fixpoint grouped (ls : list line) : list Vdev * list VdevGroup :=
  match ls with
  | [] => ([], [])
  | l :: rest =>
      let '(leading, groups) := grouped rest in
      if group_header l then ([], mkVdevGroup (vdev_of l) leading :: groups)
      else (vdev_of l :: leading, groups)
  end.

(** The groups of a block, as the grouping invariant describes them. *)
Definition groups_of_block (ls : list line) : list VdevGroup :=
  synthetic (grouped ls).1 ++ (grouped ls).2.

End Grouping.

(** One or more decimal digits. *)
Definition is_digits (s : string) : bool :=
  match list_ascii_of_string s with
  | [] => false
  | cs => forallb (fun c => Nat.leb 48 (nat_of_ascii c) && Nat.leb (nat_of_ascii c) 57) cs
  end.

(** The token without a trailing ["-<digits>"] suffix, as the
    specification words the matching of group kinds. *)
Definition strip_index_suffix (tok : string) : string :=
  match rev (Split tok "-") with
  | last :: (_ :: _) as front =>
      if is_digits last then Join (rev front) "-" else tok
  | _ => tok
  end.

(** A group header as the specification words it. *)
Definition stated_group_header `{Helpers} (l : line) : bool :=
  match l with
  | tok :: _ => IsVdevGroup (strip_index_suffix tok)
  | [] => false
  end.

(** *** Records and blocks *)

(** What a caller sees of a record: its fields, and behind each entry of
    [Vdevs] the group it points at. *)
Definition snapshot (h : heap) (z : ExportedZpool)
  : string * string * string * string * string * list (option VdevGroup) :=
  (Name z, Id z, State z, Status z, Action z, (fun p => h !! p) <$> Vdevs z).

(** A pool block of a report: the marker line with the pool name (and
    whatever tokens follow it), and the lines up to the next marker. *)
Record block : Type := mkBlock {
  block_name : string;
  block_extra : list string;
  block_body : list line
}.

Definition block_lines (b : block) : list line :=
  ("pool:" :: block_name b :: block_extra b) :: block_body b.

(** A report: lines that belong to no block, then the blocks back to back. *)
Definition report (preamble : list line) (blocks : list block) : list line :=
  preamble ++ concat (block_lines <$> blocks).

(** The record of a block parsed alone, on a record and a heap of its own. *)
Definition record_of_block `{Helpers} (b : block)
  : option (string * string * string * string * string * list (option VdevGroup)) :=
  match parseLines (with_Name (block_name b) emptyExportedZpool) [] (block_body b) with
  | Done (z, h, _) => Some (snapshot h z)
  | IndexOutOfRange _ _ => None
  end.

(** A block the scanner gets through: no line of its body is a marker,
    and the scan of the body returns. *)
Definition block_ok `{Helpers} (b : block) : Prop :=
  Forall (fun l => is_marker l = false) (block_body b) /\
  is_Some (record_of_block b).

(** *** The two readings of [Vdevs] *)

(** A group as it is when it is opened: its descriptor, and no device. *)
Definition without_devices (g : VdevGroup) : VdevGroup :=
  mkVdevGroup (Group g) [].

(** The fields of a record other than [Vdevs]. *)
Definition fields_of (z : ExportedZpool) : ExportedZpool := with_Vdevs [] z.

Definition Declared_fields_of (z : Declared.ExportedZpool) : ExportedZpool :=
  mkExportedZpool (Declared.Name z) (Declared.Id z) (Declared.State z)
                  (Declared.Status z) (Declared.Action z) [].

(** The variables of a scan but for the entries of [Vdevs]. *)
Definition but_Vdevs (s : scan) : scan :=
  mkScan (fields_of (ez s)) (objs s) (curVdevGroup s)
         (actionFound s) (configFound s) (loc s).

Definition Declared_but_Vdevs (s : Declared.scan) : scan :=
  mkScan (Declared_fields_of (Declared.ez s)) (Declared.objs s) (Declared.curVdevGroup s)
         (Declared.actionFound s) (Declared.configFound s) (Declared.loc s).

(** The two scanners have done the same, but for the entries of [Vdevs]. *)
Definition agree (a : outcome Declared.control) (b : outcome control) : Prop :=
  match a, b with
  | Done (Declared.Continue d), Done (Continue s) => Declared_but_Vdevs d = but_Vdevs s
  | Done (Declared.Return d n), Done (Return s m) =>
      Declared_but_Vdevs d = but_Vdevs s /\ n = m
  | IndexOutOfRange i k, IndexOutOfRange j m => i = j /\ k = m
  | _, _ => False
  end.

(** *** The earlier parser *)

(** No device is recorded in the group. *)
Definition no_devices (g : VdevGroup) : Prop := Devices g = [].

(** The records of a listing hold groups without devices. *)
Definition no_devices_recorded (pools : list Superseded.ExportedZpool) : Prop :=
  Forall (fun z => Forall no_devices (Superseded.Vdevs z)) pools.

(** ** Models of the collaborators *)

Module SpecModel.

(** Modelled from the spec: [setString], which the parser calls and which
    is defined in a file of the package that is not among the sources.
    The specification describes it as assigning "a string field only if
    not already set (idempotent first write wins semantics)"; a Go string
    field that was never assigned holds the empty string. *)
Definition setString (field value : string) : string :=
  if String.eqb field "" then value else field.

(** Modelled from the spec: [IsVdevGroup], defined outside the sources.
    The specification calls it a membership test "against the fixed set of
    redundancy-scheme names" and names the mirror and the raidz variants. *)
Definition IsVdevGroup (kind : string) : bool :=
  existsb (String.eqb kind) ["mirror"; "raidz"; "raidz1"; "raidz2"; "raidz3"].

(** Modelled from the spec: [ResolveDeviceName], defined outside the
    sources, "a pure, side-effect-free lookup" from a raw token to a
    display name; this one answers with the token itself. *)
Definition ResolveDeviceName (token : string) : string := token.

Definition helpers : Helpers :=
  Build_Helpers IsVdevGroup ResolveDeviceName setString.

(** Modelled from the spec: the command runner [command.Run], defined
    outside the sources: each call answers with tokenized lines and an
    error.  This one answers from a prepared list and records the
    arguments of every call. *)
Record tool : Type := mkTool {
  answers : list (list line * option error);
  calls : list (list string)
}.

Definition run (args : list string) (w : tool) : (list line * option error) * tool :=
  match answers w with
  | r :: rest => (r, mkTool rest (calls w ++ [args]))
  | [] => (([], Some "exit status 1"), mkTool [] (calls w ++ [args]))
  end.

Definition runner : CommandRunner tool := run.

End SpecModel.

(** [setString] assigns only to a field that is still unset. *)
Definition FirstWriteWins `{Helpers} : Prop :=
  forall field value, setString field value = SpecModel.setString field value.

(** ** Sample reports *)

Module Sample.

(** A pool of one mirror, as [zpool import] prints it. *)
Definition tank : block :=
  mkBlock "tank" []
    [ ["id:"; "123"];
      ["state:"; "ONLINE"];
      ["action:"; "The"; "pool"; "can"; "be"; "imported"; "using"; "its"; "name"; "or"];
      ["numeric"; "identifier."];
      ["config:"];
      [];
      ["tank"; "ONLINE"];
      ["mirror-0"; "ONLINE"];
      ["sda"; "ONLINE"];
      ["sdb"; "ONLINE"];
      [] ].

(** A pool of two bare disks. *)
Definition scratch : block :=
  mkBlock "scratch" []
    [ ["id:"; "456"];
      ["state:"; "ONLINE"];
      ["config:"];
      [];
      ["scratch"; "ONLINE"];
      ["sdc"; "ONLINE"];
      ["sdd"; "ONLINE"] ].

(** A destroyed pool, as [zpool import -D] prints it. *)
Definition gone : block :=
  mkBlock "gone" []
    [ ["id:"; "789"];
      ["state:"; "ONLINE"; "(DESTROYED)"];
      ["config:"];
      [];
      ["gone"; "ONLINE"];
      ["raidz1-0"; "ONLINE"];
      ["sde"; "ONLINE"];
      ["sdf"; "ONLINE"];
      ["sdg"; "ONLINE"] ].

End Sample.

(** ** Attached pools: [GetZpool] and [ListZpools]

    The two source files agree on this part, line for line. *)

(** [type Zpool struct]: [uint64] fields as binary naturals, the
    [float64] field as a binary64 float. *)
Record Zpool : Type := mkZpool {
  Zpool_Name : string;
  Zpool_Health : string;
  Allocated : N;
  Size : N;
  Free : N;
  Fragmentation : N;
  ReadOnly : bool;
  Freeing : N;
  Leaked : N;
  DedupRatio : PrimFloat.float;
  Zpool_Vdevs : list VdevGroup
}.

(** [&Zpool{Name: name}] *)
Definition newZpool (name : string) : Zpool :=
  mkZpool name "" 0%N 0%N 0%N 0%N false 0%N 0%N PrimFloat.zero [].

(** What [GetZpool] uses of the other files of the package: the two
    argument lists, and the two methods that fill a pool from the output of
    the tool; a method works on the pool behind its receiver and returns an
    error. *)
Class PoolHelpers : Type := {
  zpoolArgs : list string;
  zpoolVdevArgs : list string;
  parseLine : Zpool -> list string -> outcome (Zpool * option error);
  parseVdevs : Zpool -> list (list string) -> outcome (Zpool * option error)
}.

Section Pools.
Context `{PoolHelpers} {W : Type} `{CommandRunner W}.

(** [for _, line := range out { if err := z.parseLine(line); err != nil
    { return nil, err } }], lines 59 to 63: the pool after the lines, or the
    first error. *)
Fixpoint parseLine_all (z : Zpool) (out : list line) : outcome (Zpool * option error) :=
  match out with
  | [] => Done (z, None)
  | l :: rest =>
      match parseLine z l with
      | IndexOutOfRange k n => IndexOutOfRange k n
      | Done (z', Some e) => Done (z', Some e)
      | Done (z', None) => parseLine_all z' rest
      end
  end.

(** [func GetZpool(name string)], which returns a pointer to the pool
    and an error. *)
Definition GetZpool (name : string) (w : W) : outcome (option Zpool * option error) * W :=
  let '((out, err), w1) := zpoolOutput (zpoolArgs ++ [name]) w in
  match err with
  | Some e => (Done (None, Some e), w1)
  | None =>
      match parseLine_all (newZpool name) out with
      | IndexOutOfRange k n => (IndexOutOfRange k n, w1)
      | Done (_, Some e) => (Done (None, Some e), w1)
      | Done (z, None) =>
          let '((out', err'), w2) := zpoolOutput (zpoolVdevArgs ++ [name]) w1 in
          match err' with
          | Some e => (Done (None, Some e), w2)
          | None =>
              match parseVdevs z out' with
              | IndexOutOfRange k n => (IndexOutOfRange k n, w2)
              | Done (_, Some e) => (Done (None, Some e), w2)
              | Done (z', None) => (Done (Some z', None), w2)
              end
          end
      end
  end.

(** The loop of [ListZpools], lines 125 to 131. *)
Fixpoint ListZpools_loop (out : list line) (pools : list (option Zpool)) (w : W)
  : outcome (list (option Zpool) * option error) * W :=
  match out with
  | [] => (Done (pools, None), w)
  | l :: rest =>
      match at_index l 0 with
      | IndexOutOfRange k n => (IndexOutOfRange k n, w)
      | Done name =>
          match GetZpool name w with
          | (IndexOutOfRange k n, w') => (IndexOutOfRange k n, w')
          | (Done (_, Some e), w') => (Done ([], Some e), w')
          | (Done (z, None), w') => ListZpools_loop rest (pools ++ [z]) w'
          end
      end
  end.

(** [func ListZpools() ([]*Zpool, error)]; a pointer of the returned
    slice is [Some] pool, or [None] for nil. *)
Definition ListZpools (w : W) : outcome (list (option Zpool) * option error) * W :=
  let '((out, err), w1) := zpoolOutput ["list"; "-Ho"; "name"] w in
  match err with
  | Some e => (Done ([], Some e), w1)
  | None => ListZpools_loop out [] w1
  end.

End Pools.

(** Modelled from the spec: the argument lists [zpoolArgs] and
    [zpoolVdevArgs] and the methods [parseLine] and [parseVdevs], defined in
    files of the package that are not among the sources.  The specification
    names the methods and says only that they build "one pool record from
    the detail/status output of one pool".  The properties of [GetZpool] and
    [ListZpools] hold for every choice of the four; the examples use these:
    empty argument lists, and methods that accept every line and leave the
    pool as it is. *)
Module SamplePools.

Definition zpoolArgs : list string := [].
Definition zpoolVdevArgs : list string := [].
Definition parseLine (z : Zpool) (l : list string) : outcome (Zpool * option error) :=
  Done (z, None).
Definition parseVdevs (z : Zpool) (out : list (list string))
  : outcome (Zpool * option error) :=
  Done (z, None).

Definition helpers : PoolHelpers :=
  Build_PoolHelpers zpoolArgs zpoolVdevArgs parseLine parseVdevs.

End SamplePools.

(** ** Vocabulary of the further properties *)

(** The pool names on the marker lines of an output. *)
Definition pool_names (out : list line) : list string :=
  omap (fun l : list string => if is_marker l then l !! 1 else None) out.

(** A blank source line. *)
Definition blank (l : line) : bool :=
  match l with
  | [] => true
  | _ :: _ => false
  end.

(** The variables of a scan without the line count. *)
Definition forget_loc (s : scan) : scan :=
  mkScan (ez s) (objs s) (curVdevGroup s) (actionFound s) (configFound s) 0.

(** Two outcomes of [parseLines] that differ at most in the count. *)
Definition same_but_count
    (a b : outcome (ExportedZpool * list VdevGroup * nat)) : Prop :=
  match a, b with
  | Done (z1, h1, _), Done (z2, h2, _) => z1 = z2 /\ h1 = h2
  | IndexOutOfRange i k, IndexOutOfRange j m => i = j /\ k = m
  | _, _ => False
  end.

(** * Properties *)

(** ** Go strings *)

Lemma HasPrefix_spec (s prefix : string) :
  HasPrefix s prefix = true <-> exists rest, s = (prefix ++ rest)%string.
Proof.
  revert s. induction prefix as [|p prefix IH]; intros s; simpl.
  - split; [intros _; exists s; reflexivity | intros _; destruct s; reflexivity].
  - destruct s as [|c s]; simpl.
    + split; [discriminate | intros [rest E]; discriminate].
    + rewrite andb_true_iff, Ascii.eqb_eq, IH. split.
      * intros [-> [rest ->]]. exists rest. reflexivity.
      * intros [rest E]. injection E as -> ->. split; [reflexivity | eauto].
Qed.

Lemma Contains_spec (s substr : string) :
  Contains s substr = true <->
  exists before after, s = (before ++ substr ++ after)%string.
Proof.
  induction s as [|c s IH].
  - unfold Contains. rewrite orb_false_r, HasPrefix_spec. split.
    + intros [rest E]. exists "", rest. exact E.
    + intros [before [after E]]. destruct before; [eauto | discriminate].
  - cbn [Contains]. rewrite orb_true_iff, HasPrefix_spec, IH. split.
    + intros [[rest E] | [before [after E]]].
      * exists "", rest. exact E.
      * exists (String c before), after. simpl. congruence.
    + intros [before [after E]]. destruct before as [|b before]; simpl in E.
      * left. eauto.
      * right. injection E as _ ->. eauto.
Qed.

(** Takes the dispatch of a loop body apart, one test at a time. *)
Ltac dispatch :=
  repeat match goal with
    | |- context [if ?b then _ else _] => destruct b eqn:?
    | |- context [match at_index ?l ?i with _ => _ end] =>
        destruct (at_index l i) eqn:?
    | |- context [match curVdevGroup ?s with _ => _ end] =>
        destruct (curVdevGroup s) eqn:?
    | |- context [match Superseded.curVdevGroup ?s with _ => _ end] =>
        destruct (Superseded.curVdevGroup s) eqn:?
    end.

(** ** The loop of [parseLines] *)

Section ScannerFacts.
Context `{Helpers}.

(** A turn of the loop counts its line, and leaves the loop only at a
    marker, with the count of the lines before it. *)
Lemma body_control (s : scan) (l : line) (c : control) :
  body s l = Done c ->
  match c with
  | Continue s' =>
      loc s' = loc s + 1 /\ is_marker l = false /\ Name (ez s') = Name (ez s)
  | Return s' n => n = loc s /\ is_marker l = true
  end.
Proof.
  unfold body. destruct l as [|tok tail]; [intros [= <-]; simpl; auto |].
  cbn [is_marker]. unfold mbind, outcome_bind.
  dispatch; intros [= <-]; unfold add_device; simpl in *;
    repeat match goal with E : curVdevGroup _ = _ |- _ => rewrite E end; simpl;
    auto with lia.
Qed.

Lemma loop_count (lines : list line) :
  forall s s' n, loop s lines = Done (s', n) -> n = loc s + next_marker lines.
Proof.
  induction lines as [|l rest IH]; intros s s' n; simpl.
  - intros [= _ <-]. lia.
  - unfold mbind, outcome_bind. destruct (body s l) as [c|] eqn:Eb; [|discriminate].
    pose proof (body_control _ _ _ Eb) as Hc. destruct c as [s1|s1 k].
    + destruct Hc as (Hloc & -> & _). intros E. apply IH in E. lia.
    + destruct Hc as (-> & ->). intros [= _ <-]. lia.
Qed.

Lemma loop_Name (lines : list line) :
  forall s s' n, loop s lines = Done (s', n) -> Name (ez s') = Name (ez s).
Proof.
  induction lines as [|l rest IH]; intros s s' n; simpl.
  - intros [= <- _]. reflexivity.
  - unfold mbind, outcome_bind. destruct (body s l) as [c|] eqn:Eb; [|discriminate].
    destruct c as [s1|s1 k].
    + intros E. apply IH in E. rewrite E.
      apply (body_control _ _ _ Eb).
    + intros [= <- _]. revert Eb. unfold body.
      destruct l as [|tok tail]; [discriminate |].
      unfold mbind, outcome_bind. dispatch; intros [= <-]; reflexivity.
Qed.

(** Lines before a marker are scanned one after the other. *)
Lemma loop_app (pre post : list line) :
  Forall (fun l => is_marker l = false) pre ->
  forall s, loop s (pre ++ post) = r ← loop s pre; loop r.1 post.
Proof.
  induction 1 as [|l pre Hl _ IH]; intros s; [reflexivity |].
  simpl. unfold mbind, outcome_bind in *.
  destruct (body s l) as [c|] eqn:Eb; [|reflexivity].
  pose proof (body_control _ _ _ Eb) as Hc.
  destruct c as [s1|s1 k]; [apply IH |].
  destruct Hc as [_ Hm]. congruence.
Qed.

(** Without a marker the loop runs to the end of the lines. *)
Lemma loop_runs_out (lines : list line) :
  Forall (fun l => is_marker l = false) lines ->
  forall s s' n, loop s lines = Done (s', n) -> n = loc s'.
Proof.
  induction 1 as [|l lines Hl _ IH]; intros s s' n; simpl.
  - intros [= <- <-]. reflexivity.
  - unfold mbind, outcome_bind. destruct (body s l) as [[s1|s1 k]|] eqn:Eb; [| |discriminate].
    + apply IH.
    + destruct (body_control _ _ _ Eb) as [_ Hm]. congruence.
Qed.

Lemma parseLines_count (z z' : ExportedZpool) (h h' : heap) (lines : list line) (n : nat) :
  parseLines z h lines = Done (z', h', n) -> n = next_marker lines.
Proof.
  unfold parseLines, mbind, outcome_bind.
  destruct (loop (enter z h) lines) as [[s k]|] eqn:E; [|discriminate].
  intros [= _ _ <-]. apply loop_count in E. exact E.
Qed.

Lemma next_marker_first (lines : list line) :
  first_marker_at lines (next_marker lines).
Proof.
  induction lines as [|l rest [IHa IHb]]; simpl.
  - split; [intros k l Hk; lia | right; reflexivity].
  - destruct (is_marker l) eqn:El.
    + split; [intros k l' Hk; lia | left; exists l; auto].
    + split.
      * intros [|k] l' Hk; simpl; [intros [= <-]; exact El |].
        apply IHa. lia.
      * destruct IHb as [(l' & Hl' & Hm) | ->]; [left; exists l'; auto | right; reflexivity].
Qed.

Lemma next_marker_none (lines : list line) :
  Forall (fun l => is_marker l = false) lines -> next_marker lines = length lines.
Proof.
  induction 1 as [|l lines Hl _ IH]; simpl; [reflexivity |]. rewrite Hl, IH. reflexivity.
Qed.

(** The position of the first marker is determined by its description. *)
Lemma first_marker_at_unique (lines : list line) (n m : nat) :
  first_marker_at lines n -> first_marker_at lines m -> n = m.
Proof.
  intros [Ha Hb] [Hc Hd].
  destruct (Nat.lt_trichotomy n m) as [Hlt | [-> | Hlt]]; [| reflexivity |]; exfalso.
  - destruct Hb as [(l & Hl & Hm) | ->].
    + rewrite (Hc _ _ Hlt Hl) in Hm. discriminate.
    + destruct Hd as [(l & Hl & _) | ->]; [apply lookup_lt_Some in Hl |]; lia.
  - destruct Hd as [(l & Hl & Hm) | ->].
    + rewrite (Ha _ _ Hlt Hl) in Hm. discriminate.
    + destruct Hb as [(l & Hl & _) | ->]; [apply lookup_lt_Some in Hl |]; lia.
Qed.

(** A line that is not a marker and on which no second token is missed
    lets the loop go on. *)
Lemma body_continues (s : scan) (l : line) :
  line_ok (Name (ez s)) l = true -> is_marker l = false ->
  exists s', body s l = Done (Continue s').
Proof.
  unfold body. destruct l as [|tok [|v tail]]; simpl.
  - eauto.
  - unfold mbind, outcome_bind, at_index. simpl.
    intros Hok Hm. rewrite Hm. apply andb_true_iff in Hok as [Hid Hin].
    rewrite Hm in Hin.
    apply negb_true_iff in Hid. rewrite Hid.
    repeat match goal with
      | |- context [if ?b then _ else _] => destruct b eqn:?; eauto
      end;
    simpl in Hin;
    repeat match goal with E : String.eqb _ _ = false |- _ => rewrite E in Hin end;
    discriminate.
  - intros _ ->. unfold mbind, outcome_bind, at_index. simpl.
    dispatch; eauto.
Qed.

Lemma loop_completes (lines : list line) :
  forall s,
    Forall (fun l => line_ok (Name (ez s)) l = true) (take (next_marker lines) lines) ->
    exists s', loop s lines = Done (s', loc s + next_marker lines).
Proof.
  induction lines as [|l rest IH]; intros s; simpl.
  - intros _. exists s. do 2 f_equal. lia.
  - destruct (is_marker l) eqn:El; simpl.
    + intros _. unfold mbind, outcome_bind.
      destruct l as [|tok tail]; [discriminate |]. simpl in El.
      unfold body. rewrite El. simpl. eexists. do 2 f_equal. lia.
    + intros Hok. apply Forall_cons in Hok as [Hl Hrest].
      destruct (body_continues s l Hl El) as [s1 Eb].
      unfold mbind, outcome_bind. rewrite Eb.
      destruct (body_control _ _ _ Eb) as (Hloc & _ & HN).
      rewrite <- HN in Hrest. destruct (IH s1 Hrest) as [s' E].
      exists s'. rewrite E. do 2 f_equal. lia.
Qed.

(** The only panic of a turn of the loop: a second token is read from
    a line of one token. *)
Lemma body_panics (s : scan) (l : line) (i k : nat) :
  body s l = IndexOutOfRange i k ->
  i = 1 /\ k = 1 /\ length l = 1 /\ is_marker l = false.
Proof.
  unfold body. destruct l as [|tok [|v tail]]; [discriminate | |].
  - unfold mbind, outcome_bind, at_index. simpl.
    destruct (String.eqb tok "pool:"); [discriminate |].
    dispatch; intros [= <- <-]; auto.
  - unfold mbind, outcome_bind, at_index. simpl. dispatch; discriminate.
Qed.

Lemma loop_panics (lines : list line) :
  forall s i k,
    loop s lines = IndexOutOfRange i k ->
    i = 1 /\ k = 1 /\
    exists j l, j < next_marker lines /\ lines !! j = Some l /\ length l = 1.
Proof.
  induction lines as [|l rest IH]; intros s i k; [discriminate |].
  cbn [loop]. unfold mbind, outcome_bind.
  destruct (body s l) as [[s1|s1 n]|i' k'] eqn:Eb; [| discriminate |].
  - intros E. destruct (IH _ _ _ E) as (-> & -> & j & l' & Hj & Hl & Hlen).
    destruct (body_control _ _ _ Eb) as (_ & Hm & _).
    repeat split. exists (S j), l'. simpl. rewrite Hm. auto with lia.
  - intros [= <- <-]. destruct (body_panics _ _ _ _ Eb) as (-> & -> & Hlen & Hm).
    repeat split. exists 0, l. simpl. rewrite Hm. auto with lia.
Qed.

(** C1. The count [parseLines] returns is the 0-based index of the
    first line whose first token is ["pool:"], and the number of lines,
    blank ones included, when there is no such line.  This holds of every
    call that returns; a call returns whenever no line before the marker
    misses the second token the scanner reads from it, and a call that does
    not return has met a line of a single token before the marker. *)
Theorem parseLines_consumed_lines (z : ExportedZpool) (h : heap) (lines : list line) :
  (forall z' h' n, parseLines z h lines = Done (z', h', n) -> first_marker_at lines n) /\
  (Forall (fun l => line_ok (Name z) l = true) (take (next_marker lines) lines) ->
   exists z' h' n, parseLines z h lines = Done (z', h', n)) /\
  (forall i k,
     parseLines z h lines = IndexOutOfRange i k ->
     exists j l, j < next_marker lines /\ lines !! j = Some l /\ length l = 1).
Proof.
  unfold parseLines, mbind, outcome_bind. split; [|split].
  - intros z' h' n. destruct (loop (enter z h) lines) as [[s k]|] eqn:E; [|discriminate].
    intros [= _ _ <-]. apply loop_count in E. simpl in E. subst k.
    apply next_marker_first.
  - intros Hok. destruct (loop_completes lines (enter z h) Hok) as [s' E].
    rewrite E. simpl. eauto.
  - intros i k. destruct (loop (enter z h) lines) as [[s n]|i' k'] eqn:E; [discriminate |].
    intros _. apply loop_panics in E. apply E.
Qed.

End ScannerFacts.

(** On the tank block the scanner reads eleven lines, up to the end. *)
Lemma parseLines_consumed_lines_witness :
  exists z' h',
    parseLines (H := SpecModel.helpers) (with_Name "tank" emptyExportedZpool) []
      (block_body Sample.tank ++ block_lines Sample.scratch) = Done (z', h', 11) /\
    first_marker_at (block_body Sample.tank ++ block_lines Sample.scratch) 11.
Proof.
  pose proof (parseLines_consumed_lines (H := SpecModel.helpers)
    (with_Name "tank" emptyExportedZpool) []
    (block_body Sample.tank ++ block_lines Sample.scratch)) as (Hcount & Hreturns & _).
  destruct Hreturns as (z' & h' & n & E).
  - vm_compute. repeat constructor.
  - pose proof (Hcount _ _ _ E) as Hn.
    assert (n = next_marker (block_body Sample.tank ++ block_lines Sample.scratch)) as ->
      by (eapply first_marker_at_unique; [exact Hn | apply next_marker_first]).
    exists z', h'. split; [exact E | exact Hn].
Defined.

(** ** Lines without a value *)

Section ShortLines.
Context `{Helpers}.

(** C8, at the failing input.  The [id:] case reads [line[1]] without a
    look at the length of the line: wherever a lone [id:] token stands in a
    block, after lines the scanner has passed, the scan stops there with a
    panic; it does not complete and returns nothing. *)
Theorem parseLines_lone_id (z : ExportedZpool) (h : heap) (pre post : list line) :
  Forall (fun l => is_marker l = false) pre ->
  (exists r, parseLines z h pre = Done r) ->
  parseLines z h (pre ++ ["id:"] :: post) = IndexOutOfRange 1 1.
Proof.
  intros Hmark [r Hr]. unfold parseLines in *. rewrite (loop_app _ _ Hmark).
  unfold mbind, outcome_bind in *.
  destruct (loop (enter z h) pre) as [[s1 k]|]; [|discriminate].
  reflexivity.
Qed.

(** The cases of the other keys slice [line[1:]] and join it: a lone key
    hands the empty string to [setString]. *)
Lemma parseLines_lone_key (z : ExportedZpool) (h : heap) :
  parseLines z h [["state:"]] = Done (with_State (setString (State z) "") z, h, 1) /\
  parseLines z h [["status:"]] = Done (with_Status (setString (Status z) "") z, h, 1) /\
  parseLines z h [["action:"]] = Done (with_Action (setString (Action z) "") z, h, 1).
Proof. repeat split; reflexivity. Qed.

End ShortLines.

(** A block of the tank pool whose [id:] line has lost its value. *)
Lemma parseLines_lone_id_witness :
  @parseLines SpecModel.helpers (with_Name "tank" emptyExportedZpool) []
    ([["state:"; "ONLINE"]] ++ ["id:"] :: [["config:"]; ["sda"; "ONLINE"]]) =
  IndexOutOfRange 1 1.
Proof.
  apply (@parseLines_lone_id SpecModel.helpers).
  - repeat constructor.
  - eexists. vm_compute. reflexivity.
Defined.

(** ** Header fields and the continuation of the action text *)

Section HeaderFacts.
Context `{Helpers}.

(** The action text changes only at an [action:] line or while the
    continuation is armed. *)
Lemma body_action_kept (s : scan) (l : line) (c : control) :
  actionFound s = false -> starts_with "action:" l = false ->
  body s l = Done c ->
  Action (ez (after c)) = Action (ez s) /\
  actionFound (after c) = false /\
  (starts_with "config:" l = false -> configFound (after c) = configFound s).
Proof.
  intros Haf. unfold body. destruct l as [|tok tail]; simpl.
  - intros _ [= <-]. simpl. auto.
  - intros Hact. unfold mbind, outcome_bind. rewrite Hact, Haf.
    dispatch; intros [= <-]; unfold add_device, open_group; simpl in *;
      repeat match goal with E : curVdevGroup _ = _ |- _ => rewrite E end; simpl;
      repeat split; auto; try discriminate.
Qed.

Lemma loop_action_kept (lines : list line) :
  forall s s' n,
    actionFound s = false ->
    Forall (fun l => starts_with "action:" l = false) lines ->
    loop s lines = Done (s', n) ->
    Action (ez s') = Action (ez s) /\
    actionFound s' = false /\
    (Forall (fun l => starts_with "config:" l = false) lines ->
     configFound s' = configFound s).
Proof.
  induction lines as [|l rest IH]; intros s s' n Haf Hact; simpl.
  - intros [= <- _]. auto.
  - apply Forall_cons in Hact as [Hl Hrest]. unfold mbind, outcome_bind.
    destruct (body s l) as [c|] eqn:Eb; [|discriminate].
    destruct (body_action_kept _ _ _ Haf Hl Eb) as (Ea & Ef & Ec).
    destruct c as [s1|s1 k]; simpl in *.
    + intros E. destruct (IH _ _ _ Ef Hrest E) as (Ea' & Ef' & Ec').
      split; [congruence |]. split; [assumption |].
      intros Hcfg. apply Forall_cons in Hcfg as [Hc1 Hc2].
      rewrite (Ec' Hc2). auto.
    + intros [= <- _]. split; [assumption |]. split; [assumption |].
      intros Hcfg. apply Forall_cons in Hcfg as [Hc1 _]. auto.
Qed.

(** C2, as amended.  On a record whose action text is unset, in a block
    whose only [action:] line comes before any [config:] line and is
    followed by a line that is not blank and whose first token is neither
    the marker, nor a header key, nor [config:], nor the pool name, the
    action text ends as the tokens after the [action:] key joined by single
    spaces, one space, and the tokens of the following line joined by single
    spaces.  No later line is added to it. *)
Theorem action_continuation (z : ExportedZpool) (h : heap)
    (pre : list line) (vals : list string) (free : line) (post : list line)
    (z' : ExportedZpool) (h' : heap) (n : nat) :
  (forall v, setString "" v = v) ->
  Action z = "" ->
  Forall (fun l => is_marker l = false) pre ->
  Forall (fun l => starts_with "action:" l = false) pre ->
  Forall (fun l => starts_with "config:" l = false) pre ->
  free_text (Name z) free = true ->
  Forall (fun l => starts_with "action:" l = false) post ->
  parseLines z h (pre ++ ("action:" :: vals) :: free :: post) = Done (z', h', n) ->
  Action z' = (Join vals " " ++ " " ++ Join free " ")%string.
Proof.
  intros Hset Hz Hmark Hact Hcfg Hfree Hpost.
  unfold parseLines. rewrite (loop_app _ _ Hmark). unfold mbind, outcome_bind.
  destruct (loop (enter z h) pre) as [[s1 k1]|] eqn:E1; [|discriminate].
  destruct (loop_action_kept pre (enter z h) _ _ eq_refl Hact E1) as (Ea & Ef & Ec).
  specialize (Ec Hcfg). pose proof (loop_Name _ _ _ _ E1) as EN.
  simpl in Ea, Ec, EN |- *. unfold mbind, outcome_bind.
  destruct free as [|tok rest]; [discriminate |].
  simpl in Hfree. apply negb_true_iff in Hfree.
  repeat (apply orb_false_iff in Hfree as [? Hfree]).
  unfold body. simpl. rewrite EN.
  repeat match goal with E : String.eqb _ _ = false |- _ => rewrite E; clear E end.
  simpl. rewrite Ec. simpl.
  match goal with |- context [loop ?s post] => destruct (loop s post) as [[s3 k3]|] eqn:E3 end;
    [|discriminate].
  intros [= <- _ _].
  match type of E3 with loop ?s _ = _ =>
    destruct (loop_action_kept post s _ _ eq_refl Hpost E3) as (Ea3 & _) end.
  rewrite Ea3. simpl. rewrite Ea, Hz, Hset. reflexivity.
Qed.

Lemma FirstWriteWins_unset :
  FirstWriteWins -> forall v, setString "" v = v.
Proof. intros Hw v. rewrite Hw. reflexivity. Qed.

Lemma FirstWriteWins_set (old v : string) :
  FirstWriteWins -> old <> "" -> setString old v = old.
Proof.
  intros Hw Hold. rewrite Hw. unfold SpecModel.setString.
  destruct (String.eqb_spec old ""); congruence.
Qed.

(** A line of another key leaves the field as it is. *)
Lemma body_field_untouched (f : header) (s : scan) (l : line) (c : control) :
  starts_with (key f) l = false ->
  body s l = Done c -> field f (ez (after c)) = field f (ez s).
Proof.
  unfold body. destruct l as [|tok tail]; simpl.
  - intros _ [= <-]. reflexivity.
  - intros Hkey. unfold mbind, outcome_bind.
    destruct f; simpl in Hkey; rewrite ?Hkey;
      dispatch; intros [= <-]; unfold add_device, open_group; simpl in *;
      repeat match goal with E : curVdevGroup _ = _ |- _ => rewrite E end;
      try reflexivity; congruence.
Qed.

(** Once the field is set no line changes it. *)
Lemma body_field_kept (f : header) (s : scan) (l : line) (c : control) :
  FirstWriteWins -> field f (ez s) <> "" ->
  body s l = Done c -> field f (ez (after c)) = field f (ez s).
Proof.
  intros Hw Hset. unfold body. destruct l as [|tok tail]; simpl.
  - intros [= <-]. reflexivity.
  - unfold mbind, outcome_bind.
    destruct f; simpl in Hset;
      dispatch; intros [= <-]; unfold add_device, open_group; simpl in *;
      repeat match goal with E : curVdevGroup _ = _ |- _ => rewrite E end;
      try reflexivity; apply FirstWriteWins_set; assumption.
Qed.

(** A line of the key assigns its value to the unset field. *)
Lemma body_field_assigned (f : header) (s : scan) (l : line) (c : control) :
  FirstWriteWins -> field f (ez s) = "" -> starts_with (key f) l = true ->
  body s l = Done c ->
  field f (ez (after c)) = value f l /\ exists s', c = Continue s'.
Proof.
  intros Hw Hunset. unfold body. destruct l as [|tok tail]; [discriminate |].
  simpl. intros Hkey. apply String.eqb_eq in Hkey. subst tok.
  unfold mbind, outcome_bind.
  destruct f; simpl in *.
  - destruct tail as [|v tail]; [discriminate |]. simpl.
    intros [= <-]. simpl. rewrite Hunset, FirstWriteWins_unset by assumption. eauto.
  - intros [= <-]. simpl. rewrite Hunset, FirstWriteWins_unset by assumption. eauto.
  - intros [= <-]. simpl. rewrite Hunset, FirstWriteWins_unset by assumption. eauto.
Qed.

(** A later line of the key does nothing but count. *)
Lemma body_duplicate_ignored (f : header) (s : scan) (l : line) (c : control) :
  FirstWriteWins -> field f (ez s) <> "" -> starts_with (key f) l = true ->
  body s l = Done c -> c = Continue (next_loc s).
Proof.
  intros Hw Hset. unfold body. destruct l as [|tok tail]; [discriminate |].
  simpl. intros Hkey. apply String.eqb_eq in Hkey. subst tok.
  unfold mbind, outcome_bind. destruct s as [[nm id st stat act vd] o cur af cf lc].
  destruct f; simpl in *.
  - destruct tail as [|v tail]; [discriminate |]. simpl.
    intros [= <-]. unfold on_ez, with_Id, next_loc. simpl.
    rewrite FirstWriteWins_set by assumption. reflexivity.
  - intros [= <-]. unfold on_ez, with_State, next_loc. simpl.
    rewrite FirstWriteWins_set by assumption. reflexivity.
  - intros [= <-]. unfold on_ez, with_Status, next_loc. simpl.
    rewrite FirstWriteWins_set by assumption. reflexivity.
Qed.

Lemma loop_field_untouched (f : header) (lines : list line) :
  forall s s' n,
    Forall (fun l => starts_with (key f) l = false) lines ->
    loop s lines = Done (s', n) -> field f (ez s') = field f (ez s).
Proof.
  induction lines as [|l rest IH]; intros s s' n Hkey; simpl.
  - intros [= <- _]. reflexivity.
  - apply Forall_cons in Hkey as [Hl Hrest]. unfold mbind, outcome_bind.
    destruct (body s l) as [c|] eqn:Eb; [|discriminate].
    pose proof (body_field_untouched f _ _ _ Hl Eb) as Ef.
    destruct c as [s1|s1 k]; simpl in Ef.
    + intros E. rewrite (IH _ _ _ Hrest E). exact Ef.
    + intros [= <- _]. exact Ef.
Qed.

Lemma loop_field_kept (f : header) (lines : list line) :
  FirstWriteWins ->
  forall s s' n,
    field f (ez s) <> "" ->
    loop s lines = Done (s', n) -> field f (ez s') = field f (ez s).
Proof.
  intros Hw. induction lines as [|l rest IH]; intros s s' n Hset; simpl.
  - intros [= <- _]. reflexivity.
  - unfold mbind, outcome_bind.
    destruct (body s l) as [c|] eqn:Eb; [|discriminate].
    pose proof (body_field_kept f _ _ _ Hw Hset Eb) as Ef.
    destruct c as [s1|s1 k]; simpl in Ef.
    + intros E. assert (field f (ez s1) <> "") as Hset1 by congruence.
      rewrite (IH _ _ _ Hset1 E). exact Ef.
    + intros [= <- _]. exact Ef.
Qed.

(** C7, as amended.  For the keys [id:], [state:] and [status:], whose
    fields only [setString] assigns: when the field is unset at the start
    of the scan and the first line of the key carries a value that is not
    empty, the field ends as that value whatever lines follow, and a later
    line of the same key changes nothing but the line count. *)
Theorem header_first_write_wins (f : header) :
  FirstWriteWins ->
  (forall z h pre first post z' h' n,
     field f z = "" ->
     Forall (fun l => is_marker l = false) pre ->
     Forall (fun l => starts_with (key f) l = false) pre ->
     starts_with (key f) first = true ->
     value f first <> "" ->
     parseLines z h (pre ++ first :: post) = Done (z', h', n) ->
     field f z' = value f first) /\
  (forall s dup c,
     field f (ez s) <> "" ->
     starts_with (key f) dup = true ->
     body s dup = Done c -> c = Continue (next_loc s)).
Proof.
  intros Hw. split; [|intros s dup c; apply body_duplicate_ignored; assumption].
  intros z h pre first post z' h' n Hunset Hmark Hkey Hfirst Hvalue.
  unfold parseLines. rewrite (loop_app _ _ Hmark). unfold mbind, outcome_bind.
  destruct (loop (enter z h) pre) as [[s1 k1]|] eqn:E1; [|discriminate].
  pose proof (loop_field_untouched f _ _ _ _ Hkey E1) as Ef1. simpl in Ef1.
  cbn [loop fst]. unfold mbind, outcome_bind.
  destruct (body s1 first) as [c|] eqn:Eb; [|discriminate].
  assert (field f (ez s1) = "") as Hunset1 by congruence.
  destruct (body_field_assigned f _ _ _ Hw Hunset1 Hfirst Eb) as (Ef2 & s2 & ->).
  simpl in Ef2.
  destruct (loop s2 post) as [[s3 k3]|] eqn:E3; [|discriminate].
  intros [= <- _ _]. simpl.
  assert (field f (ez s2) <> "") as Hset2 by congruence.
  rewrite (loop_field_kept f _ Hw _ _ _ Hset2 E3). exact Ef2.
Qed.

End HeaderFacts.

Lemma SpecModel_first_write_wins : @FirstWriteWins SpecModel.helpers.
Proof. intros old v. reflexivity. Qed.

(** The tank block: the action text runs over two lines. *)
Lemma action_continuation_witness :
  exists z' h' n,
    @parseLines SpecModel.helpers (with_Name "tank" emptyExportedZpool) []
      (block_body Sample.tank) = Done (z', h', n) /\
    Action z' = "The pool can be imported using its name or numeric identifier.".
Proof.
  assert (exists z' h' n,
    @parseLines SpecModel.helpers (with_Name "tank" emptyExportedZpool) []
      (block_body Sample.tank) = Done (z', h', n)) as (z' & h' & n & E)
    by (do 3 eexists; vm_compute; reflexivity).
  exists z', h', n. split; [exact E |].
  refine (@action_continuation SpecModel.helpers (with_Name "tank" emptyExportedZpool) []
    [["id:"; "123"]; ["state:"; "ONLINE"]]
    ["The"; "pool"; "can"; "be"; "imported"; "using"; "its"; "name"; "or"]
    ["numeric"; "identifier."]
    [["config:"]; []; ["tank"; "ONLINE"]; ["mirror-0"; "ONLINE"];
     ["sda"; "ONLINE"]; ["sdb"; "ONLINE"]; []]
    z' h' n _ _ _ _ _ _ _ E);
    first [ reflexivity | repeat constructor ].
Defined.

(** The continuation is gated by [config:] lines, not by group or device
    lines.  A [config:] line is not among the header keys of the
    specification and is not the pool name, yet after an [action:] line it
    is not taken as continuation; and after a [config:] line a line that
    follows [action:] is a device line, although no group or device line
    precedes it. *)
Lemma action_continuation_counterexample :
  (stated_free_text "tank" ["config:"] = true /\
   exists z' h' n,
     @parseLines SpecModel.helpers (with_Name "tank" emptyExportedZpool) []
       [["action:"; "Import"; "it."]; ["config:"]] = Done (z', h', n) /\
     Action z' = "Import it." /\
     Action z' <> "Import it. config:") /\
  (stated_free_text "tank" ["sda"; "ONLINE"] = true /\
   structural "tank" false false [["config:"]; ["action:"; "Import"; "it."]] = [] /\
   exists z' h' n,
     @parseLines SpecModel.helpers (with_Name "tank" emptyExportedZpool) []
       [["config:"]; ["action:"; "Import"; "it."]; ["sda"; "ONLINE"]] = Done (z', h', n) /\
     Action z' = "Import it." /\
     Action z' <> "Import it. sda ONLINE" /\
     h' = [mkVdevGroup (mkVdev "fileordisk" "") [mkVdev "sda" "ONLINE"]]).
Proof.
  split.
  - split; [reflexivity |]. do 3 eexists.
    split; [vm_compute; reflexivity |]. split; [reflexivity | discriminate].
  - split; [reflexivity |]. split; [reflexivity |]. do 3 eexists.
    split; [vm_compute; reflexivity |].
    split; [reflexivity |]. split; [discriminate | reflexivity].
Qed.

(** Two [state:] lines: the first value stays; the second line only
    counts. *)
Lemma header_first_write_wins_witness :
  (exists z' h' n,
     @parseLines SpecModel.helpers (with_Name "tank" emptyExportedZpool) []
       [["id:"; "123"]; ["state:"; "ONLINE"]; ["state:"; "FAULTED"]] = Done (z', h', n) /\
     State z' = "ONLINE") /\
  @body SpecModel.helpers
    (mkScan (with_State "ONLINE" (with_Name "tank" emptyExportedZpool)) [] None false false 2)
    ["state:"; "FAULTED"] =
  Done (Continue
    (mkScan (with_State "ONLINE" (with_Name "tank" emptyExportedZpool)) [] None false false 3)).
Proof.
  destruct (@header_first_write_wins SpecModel.helpers HeaderState
    SpecModel_first_write_wins) as [Hfirst Hdup].
  split.
  - assert (exists z' h' n,
      @parseLines SpecModel.helpers (with_Name "tank" emptyExportedZpool) []
        [["id:"; "123"]; ["state:"; "ONLINE"]; ["state:"; "FAULTED"]] = Done (z', h', n))
      as (z' & h' & n & E) by (do 3 eexists; vm_compute; reflexivity).
    exists z', h', n. split; [exact E |].
    refine (Hfirst (with_Name "tank" emptyExportedZpool) []
      [["id:"; "123"]] ["state:"; "ONLINE"] [["state:"; "FAULTED"]] z' h' n _ _ _ _ _ E);
      first [ reflexivity | discriminate | repeat constructor ].
  - assert (exists c, @body SpecModel.helpers
      (mkScan (with_State "ONLINE" (with_Name "tank" emptyExportedZpool)) [] None false false 2)
      ["state:"; "FAULTED"] = Done c) as [c E] by (eexists; vm_compute; reflexivity).
    rewrite E. f_equal.
    refine (Hdup _ _ _ _ _ E); [discriminate | reflexivity].
Defined.

(** The first line of a key does not always decide the field.
    [action:] is a header key: a second [action:] line does not replace the
    text, but it arms the continuation again, and the text ends with what
    follows both lines.  And a first line without a value leaves the field
    to the next line of the key. *)
Lemma header_first_write_wins_counterexample :
  (exists z' h' n,
     @parseLines SpecModel.helpers (with_Name "tank" emptyExportedZpool) []
       [["action:"; "A"]; ["x"]; ["action:"; "B"]; ["y"]] = Done (z', h', n) /\
     Action z' = "A x y" /\ Action z' <> "A" /\ Action z' <> "A x") /\
  (exists z' h' n,
     @parseLines SpecModel.helpers (with_Name "tank" emptyExportedZpool) []
       [["state:"]; ["state:"; "ONLINE"]] = Done (z', h', n) /\
     State z' = "ONLINE" /\ State z' <> "").
Proof.
  split; do 3 eexists; (split; [vm_compute; reflexivity |]);
    repeat split; try reflexivity; discriminate.
Qed.

(** ** Groups and devices *)

Section GroupFacts.
Context `{Helpers}.

Lemma alter_last {A : Type} (f : A -> A) (l : list A) (x : A) :
  alter f (length l) (l ++ [x]) = l ++ [f x].
Proof.
  rewrite <- (Nat.add_0_r (length l)). apply (alter_app_r f l [x] 0).
Qed.

Lemma extend_nil (g : VdevGroup) : extend [] g = g.
Proof. destruct g. unfold extend. simpl. rewrite app_nil_r. reflexivity. Qed.

Lemma extend_append (device : Vdev) (devices : list Vdev) (g : VdevGroup) :
  extend devices (append_device device g) = extend (device :: devices) g.
Proof. unfold extend, append_device. simpl. rewrite <- app_assoc. reflexivity. Qed.

(** What a turn of the loop that goes on does to the groups: nothing,
    on a line that is not structural; on a structural line it opens the
    group of a header, or opens the synthetic group for a first bare
    device, or appends a device to the open group. *)
Lemma body_structural (s s' : scan) (l : line) :
  body s l = Done (Continue s') ->
  (objs s' = objs s /\ Vdevs (ez s') = Vdevs (ez s) /\
   curVdevGroup s' = curVdevGroup s /\
   forall rest,
     structural (Name (ez s)) (actionFound s) (configFound s) (l :: rest) =
     structural (Name (ez s)) (actionFound s') (configFound s') rest) \/
  (actionFound s' = actionFound s /\ configFound s' = configFound s /\
   (forall rest,
      structural (Name (ez s)) (actionFound s) (configFound s) (l :: rest) =
      l :: structural (Name (ez s)) (actionFound s) (configFound s) rest) /\
   Vdevs (ez s') =
     Vdevs (ez s) ++
     (if group_header l then [length (objs s)]
      else match curVdevGroup s with None => [length (objs s)] | Some _ => [] end) /\
   objs s' =
     (if group_header l then objs s ++ [mkVdevGroup (vdev_of l) []]
      else match curVdevGroup s with
           | None => objs s ++ [mkVdevGroup (mkVdev "fileordisk" "") [vdev_of l]]
           | Some p => alter (append_device (vdev_of l)) p (objs s)
           end) /\
   curVdevGroup s' =
     (if group_header l then Some (length (objs s))
      else match curVdevGroup s with
           | None => Some (length (objs s))
           | Some p => Some p
           end)).
Proof.
  unfold body. destruct l as [|tok tail].
  - intros [= <-]. left. simpl. auto.
  - cbn [structural group_header]. unfold mbind, outcome_bind. simpl.
    destruct (String.eqb tok "pool:"); [discriminate |].
    destruct (String.eqb tok "id:").
    { destruct (at_index _ _); [|discriminate]. intros [= <-]. left. simpl. auto. }
    destruct (String.eqb tok "state:"); [intros [= <-]; left; simpl; auto |].
    destruct (String.eqb tok "status:"); [intros [= <-]; left; simpl; auto |].
    destruct (String.eqb tok "action:"); [intros [= <-]; left; simpl; auto |].
    destruct (String.eqb tok (Name (ez s))); [intros [= <-]; left; simpl; auto |].
    destruct (String.eqb tok "config:"); [intros [= <-]; left; simpl; auto |].
    destruct (actionFound s && negb (configFound s)); [intros [= <-]; left; simpl; auto |].
    simpl. destruct tail as [|v tail]; unfold at_index; simpl.
    { destruct (IsVdevGroup _); [discriminate |]. destruct (curVdevGroup s); discriminate. }
    unfold vdev_of. simpl.
    destruct (IsVdevGroup (hd "" (Split tok "-"))).
    + intros [= <-]. right. simpl. auto 10.
    + destruct (curVdevGroup s) as [p|] eqn:Ecur; intros [= <-]; right;
        unfold add_device; simpl; rewrite ?Ecur; simpl;
        rewrite ?alter_last, ?app_nil_r; auto 10.
Qed.

(** A turn that leaves the loop has changed neither the heap nor the
    record. *)
Lemma body_returns (s s' : scan) (l : line) (n : nat) :
  body s l = Done (Return s' n) ->
  objs s' = objs s /\ ez s' = ez s /\
  forall rest, structural (Name (ez s)) (actionFound s) (configFound s) (l :: rest) = [].
Proof.
  unfold body. destruct l as [|tok tail]; [discriminate |].
  cbn [structural]. unfold mbind, outcome_bind.
  destruct (String.eqb tok "pool:"); [intros [= <- _]; simpl; auto |].
  dispatch; discriminate.
Qed.

Lemma loop_groups (lines : list line) :
  forall s s' n,
    loop s lines = Done (s', n) ->
    let ls := structural (Name (ez s)) (actionFound s) (configFound s) lines in
    match curVdevGroup s with
    | None =>
        objs s' = objs s ++ groups_of_block ls /\
        Vdevs (ez s') = Vdevs (ez s) ++ seq (length (objs s)) (length (groups_of_block ls))
    | Some p =>
        p < length (objs s) ->
        objs s' = alter (extend (grouped ls).1) p (objs s) ++ (grouped ls).2 /\
        Vdevs (ez s') = Vdevs (ez s) ++ seq (length (objs s)) (length (grouped ls).2)
    end.
Proof.
  assert (forall s : scan,
    match curVdevGroup s with
    | None => objs s = objs s ++ groups_of_block [] /\
              Vdevs (ez s) = Vdevs (ez s) ++ seq (length (objs s)) (length (groups_of_block []))
    | Some p => p < length (objs s) ->
              objs s = alter (extend (grouped []).1) p (objs s) ++ (grouped []).2 /\
              Vdevs (ez s) = Vdevs (ez s) ++ seq (length (objs s)) (length (grouped []).2)
    end) as Hnil.
  { intros s. unfold groups_of_block. simpl. destruct (curVdevGroup s); intros.
    - rewrite !app_nil_r, list_alter_id by apply extend_nil. auto.
    - rewrite !app_nil_r. auto. }
  induction lines as [|l rest IH]; intros s s' n.
  - intros [= <- _]. apply Hnil.
  - cbn [loop]. unfold mbind, outcome_bind.
    destruct (body s l) as [[s1|s1 k]|] eqn:Eb; [| |discriminate].
    + intros E. specialize (IH _ _ _ E). cbv zeta in IH |- *.
      pose proof (body_control _ _ _ Eb) as (_ & _ & EN). rewrite EN in IH.
      destruct (body_structural _ _ _ Eb)
        as [(Eo & Ev & Ec & Es) | (Ea & Ecf & Es & Ev & Eo & Ec)].
      * rewrite Es, <- Ec, <- Eo, <- Ev. exact IH.
      * rewrite Es. rewrite Ea, Ecf in IH.
        set (ls := structural (Name (ez s)) (actionFound s) (configFound s) rest) in *.
        unfold groups_of_block in *. cbn [grouped].
        destruct (grouped ls) as [leading groups] eqn:Eg. rewrite Ec, Eo, Ev in IH.
        destruct (group_header l); cbn [fst snd synthetic app] in *.
        -- destruct IH as [Io Iv]; [rewrite length_app; simpl; lia |].
           rewrite alter_last in Io. unfold extend in Io. simpl in Io.
           rewrite <- app_assoc in Io, Iv. simpl in Io, Iv.
           rewrite length_app, Nat.add_1_r in Iv.
           destruct (curVdevGroup s) as [p|]; [intros Hp |];
             rewrite ?list_alter_id by apply extend_nil; auto.
        -- destruct (curVdevGroup s) as [p|].
           ++ intros Hp. destruct IH as [Io Iv]; [rewrite length_alter; exact Hp |].
              rewrite list_alter_alter_eq in Io.
              rewrite app_nil_r, length_alter in Iv. split; [|exact Iv].
              rewrite Io. f_equal. apply list_alter_ext; [|reflexivity].
              intros g _. apply extend_append.
           ++ destruct IH as [Io Iv]; [rewrite length_app; simpl; lia |].
              rewrite alter_last in Io. unfold extend in Io. simpl in Io.
              rewrite <- app_assoc in Io, Iv. simpl in Io, Iv.
              rewrite length_app, Nat.add_1_r in Iv. auto.
    + intros [= <- _]. destruct (body_returns _ _ _ _ Eb) as (Eo & Ez & Es).
      cbv zeta. rewrite Es, Eo, Ez.
      pose proof (Hnil s) as Hs. destruct (curVdevGroup s); exact Hs.
Qed.

Lemma grouped_devices (devices rest : list line) :
  Forall (fun l => group_header l = false) devices ->
  grouped (devices ++ rest) =
  ((vdev_of <$> devices) ++ (grouped rest).1, (grouped rest).2).
Proof.
  induction 1 as [|l devices Hl _ IH]; simpl.
  - destruct (grouped rest); reflexivity.
  - rewrite IH, Hl. reflexivity.
Qed.

(** The groups of a block whose structural lines are bare devices
    followed by sections, each a header with its devices. *)
Lemma groups_of_sections (leading : list line) (sections : list (line * list line)) :
  Forall (fun l => group_header l = false) leading ->
  Forall (fun sec => group_header sec.1 = true /\
                     Forall (fun l => group_header l = false) sec.2) sections ->
  groups_of_block (leading ++ concat (section_lines <$> sections)) =
  synthetic (vdev_of <$> leading) ++
  ((fun sec => mkVdevGroup (vdev_of sec.1) (vdev_of <$> sec.2)) <$> sections).
Proof.
  intros Hleading Hsections.
  assert (grouped (concat (section_lines <$> sections)) =
          ([], (fun sec => mkVdevGroup (vdev_of sec.1) (vdev_of <$> sec.2)) <$> sections))
    as Eg.
  { induction Hsections as [|[hdr devices] sections [Hh Hd] _ IH]; [reflexivity |].
    change (concat (section_lines <$> (hdr, devices) :: sections))
      with (hdr :: (devices ++ concat (section_lines <$> sections))).
    cbn [grouped]. simpl in Hh, Hd. rewrite (grouped_devices _ _ Hd), IH, Hh.
    simpl. rewrite app_nil_r. reflexivity. }
  unfold groups_of_block. rewrite (grouped_devices _ _ Hleading), Eg. simpl.
  rewrite app_nil_r. reflexivity.
Qed.

(** Every sequence of structural lines splits in this way. *)
Lemma sections_exist (ls : list line) :
  exists leading sections,
    ls = leading ++ concat (section_lines <$> sections) /\
    Forall (fun l => group_header l = false) leading /\
    Forall (fun sec => group_header sec.1 = true /\
                       Forall (fun l => group_header l = false) sec.2) sections.
Proof.
  induction ls as [|l ls (leading & sections & -> & Hl & Hs)].
  - exists [], []. repeat split; constructor.
  - destruct (group_header l) eqn:El.
    + exists [], ((l, leading) :: sections). repeat split; [constructor |].
      constructor; [split |]; assumption.
    + exists (l :: leading), sections. repeat split; [constructor |]; assumption.
Qed.

(** The reading of [Vdevs] has no influence on a turn of the loop but
    for the entries of [Vdevs]: same fields, same objects, same locals,
    same control, same panic. *)
Lemma Declared_body_agrees (d : Declared.scan) (s : scan) (l : line) :
  Declared_but_Vdevs d = but_Vdevs s ->
  agree (Declared.body d l) (body s l).
Proof.
  destruct d as [[nm1 id1 st1 stat1 act1 vd1] o1 cur1 af1 cf1 lc1].
  destruct s as [[nm2 id2 st2 stat2 act2 vd2] o2 cur2 af2 cf2 lc2].
  unfold Declared_but_Vdevs, but_Vdevs, Declared_fields_of, fields_of. simpl.
  intros [= -> -> -> -> -> -> -> -> -> ->].
  unfold Declared.body, body, agree. destruct l as [|tok tail]; simpl; [reflexivity |].
  unfold mbind, outcome_bind.
  dispatch; simpl; auto; destruct cur2; reflexivity.
Qed.

Lemma Declared_loop_agrees (lines : list line) :
  forall d s,
    Declared_but_Vdevs d = but_Vdevs s ->
    match Declared.loop d lines, loop s lines with
    | Done (d', n), Done (s', m) => Declared_but_Vdevs d' = but_Vdevs s' /\ n = m
    | IndexOutOfRange i k, IndexOutOfRange j m => i = j /\ k = m
    | _, _ => False
    end.
Proof.
  induction lines as [|l rest IH]; intros d s E; simpl.
  - split; [exact E |]. unfold Declared_but_Vdevs, but_Vdevs in E. congruence.
  - pose proof (Declared_body_agrees d s l E) as Hb. unfold agree in Hb.
    unfold mbind, outcome_bind.
    destruct (Declared.body d l) as [[a|a n]|], (body s l) as [[b|b m]|];
      try contradiction; first [apply IH; assumption | assumption].
Qed.

Lemma without_devices_alter (device : Vdev) (p : nat) (h : heap) :
  without_devices <$> alter (append_device device) p h = without_devices <$> h.
Proof.
  revert p. induction h as [|g h IH]; intros [|p]; simpl; try reflexivity.
  f_equal. apply IH.
Qed.

(** Under the declared type the entries a scan adds to [Vdevs] are the
    objects it allocates, each as it was when it was opened. *)
Lemma Declared_body_copies (d : Declared.scan) (l : line) (c : Declared.control)
    (entries : list VdevGroup) (k : nat) :
  Declared.body d l = Done c ->
  k <= length (Declared.objs d) ->
  Declared.Vdevs (Declared.ez d) =
    entries ++ (without_devices <$> drop k (Declared.objs d)) ->
  let d' := match c with Declared.Continue d' => d' | Declared.Return d' _ => d' end in
  k <= length (Declared.objs d') /\
  Declared.Vdevs (Declared.ez d') =
    entries ++ (without_devices <$> drop k (Declared.objs d')).
Proof.
  intros Eb Hk Ev. unfold Declared.body in Eb. destruct l as [|tok tail].
  { injection Eb as <-. simpl. auto. }
  unfold mbind, outcome_bind in Eb. revert Eb.
  destruct (String.eqb tok "pool:"); [intros [= <-]; simpl; auto |].
  destruct (String.eqb tok "id:");
    [destruct (at_index _ 1); [|discriminate]; intros [= <-]; simpl; auto |].
  destruct (String.eqb tok "state:"); [intros [= <-]; simpl; auto |].
  destruct (String.eqb tok "status:"); [intros [= <-]; simpl; auto |].
  destruct (String.eqb tok "action:"); [intros [= <-]; simpl; auto |].
  destruct (String.eqb tok _); [intros [= <-]; simpl; auto |].
  destruct (String.eqb tok "config:"); [intros [= <-]; simpl; auto |].
  destruct (_ && _); [intros [= <-]; simpl; auto |].
  simpl. destruct (IsVdevGroup _).
  - destruct (at_index _ 1) as [health|]; [|discriminate]. intros [= <-].
    unfold Declared.open_group. simpl. rewrite length_app. split; [lia |].
    rewrite Ev, drop_app_le, fmap_app, <- app_assoc by exact Hk. reflexivity.
  - destruct (Declared.curVdevGroup d) as [p|] eqn:Ecur.
    + destruct (at_index _ 1) as [health|]; [|discriminate]. intros [= <-].
      unfold Declared.add_device. simpl. rewrite Ecur. simpl.
      rewrite length_alter. split; [exact Hk |].
      rewrite fmap_drop, without_devices_alter, <- fmap_drop. exact Ev.
    + destruct (at_index _ 1) as [health|]; [|discriminate]. intros [= <-].
      unfold Declared.add_device, Declared.open_group. simpl.
      rewrite length_alter, length_app. split; [lia |].
      rewrite fmap_drop, without_devices_alter, <- fmap_drop.
      rewrite Ev, drop_app_le, fmap_app, <- app_assoc by exact Hk. reflexivity.
Qed.

Lemma Declared_loop_copies (lines : list line) :
  forall d d' n entries k,
    Declared.loop d lines = Done (d', n) ->
    k <= length (Declared.objs d) ->
    Declared.Vdevs (Declared.ez d) =
      entries ++ (without_devices <$> drop k (Declared.objs d)) ->
    Declared.Vdevs (Declared.ez d') =
      entries ++ (without_devices <$> drop k (Declared.objs d')).
Proof.
  induction lines as [|l rest IH]; intros d d' n entries k; simpl.
  - intros [= <- _] _ Ev. exact Ev.
  - unfold mbind, outcome_bind.
    destruct (Declared.body d l) as [c|] eqn:Eb; [|discriminate].
    intros E Hk Ev.
    destruct (Declared_body_copies _ _ _ _ _ Eb Hk Ev) as [Hk' Ev'].
    destruct c as [d1|d1 m].
    + exact (IH _ _ _ _ _ E Hk' Ev').
    + injection E as <- _. exact Ev'.
Qed.

(** The groups of a scan under the declared type: the objects are those
    of the other reading, the record holds each without its devices. *)
Lemma Declared_parseLines_groups (z z' : Declared.ExportedZpool) (h h' : heap)
    (lines : list line) (n : nat) :
  Declared.parseLines z h lines = Done (z', h', n) ->
  let groups := groups_of_block (structural (Declared.Name z) false false lines) in
  h' = h ++ groups /\
  Declared.Vdevs z' = Declared.Vdevs z ++ (without_devices <$> groups).
Proof.
  unfold Declared.parseLines, mbind, outcome_bind.
  destruct (Declared.loop (Declared.enter z h) lines) as [[d k]|] eqn:Ed; [|discriminate].
  intros [= <- <- _]. cbv zeta.
  pose proof (Declared_loop_agrees lines (Declared.enter z h)
                (enter (Declared_fields_of z) h) eq_refl) as Ha.
  rewrite Ed in Ha.
  destruct (loop (enter (Declared_fields_of z) h) lines) as [[s m]|] eqn:Es;
    [|contradiction].
  destruct Ha as [Ha _]. apply loop_groups in Es. simpl in Es. destruct Es as [Eo _].
  assert (Declared.objs d = objs s) as Eobjs
    by (unfold Declared_but_Vdevs, but_Vdevs in Ha; congruence).
  rewrite Eobjs, Eo. split; [reflexivity |].
  rewrite (Declared_loop_copies lines _ _ _ (Declared.Vdevs z) (length h) Ed).
  - rewrite Eobjs, Eo, drop_app_length. reflexivity.
  - simpl. lia.
  - simpl. rewrite drop_all, app_nil_r. reflexivity.
Qed.

(** C3, as amended.  A group header is a structural line whose first
    token, cut at its first ["-"], is a group kind.  When the scan of a
    block returns, the group objects it has allocated are: first, if bare
    device lines come before any header, one synthetic group with all of
    them in input order; then one group for every header line, in input
    order, with the devices of the lines between it and the next header or
    the end of the block, in input order.  The record receives one entry
    for each of these objects, in that order.  What an entry shows depends
    on how [Vdevs] is read, which the source leaves open: read as the
    pointers that lines 204 and 212 append, the entries are the addresses
    of these objects; read with the element type that line 143 declares,
    each entry is the object as it was when it was opened, without a
    device. *)
Theorem parseLines_groups (name : string) (lines : list line)
    (leading : list line) (sections : list (line * list line)) :
  structural name false false lines =
    leading ++ concat (section_lines <$> sections) ->
  Forall (fun l => group_header l = false) leading ->
  Forall (fun sec => group_header sec.1 = true /\
                     Forall (fun l => group_header l = false) sec.2) sections ->
  let groups :=
    synthetic (vdev_of <$> leading) ++
    ((fun sec => mkVdevGroup (vdev_of sec.1) (vdev_of <$> sec.2)) <$> sections) in
  (forall (z z' : ExportedZpool) (h h' : heap) (n : nat),
     Name z = name ->
     parseLines z h lines = Done (z', h', n) ->
     h' = h ++ groups /\
     Vdevs z' = Vdevs z ++ seq (length h) (length groups)) /\
  (forall (z z' : Declared.ExportedZpool) (h h' : heap) (n : nat),
     Declared.Name z = name ->
     Declared.parseLines z h lines = Done (z', h', n) ->
     h' = h ++ groups /\
     Declared.Vdevs z' = Declared.Vdevs z ++ (without_devices <$> groups)).
Proof.
  intros Els Hleading Hsections groups. split.
  - intros z z' h h' n <- E.
    unfold parseLines, mbind, outcome_bind in E.
    destruct (loop (enter z h) lines) as [[s k]|] eqn:El; [|discriminate].
    injection E as <- <- _. apply loop_groups in El. simpl in El.
    rewrite Els, (groups_of_sections _ _ Hleading Hsections) in El. exact El.
  - intros z z' h h' n <- E. apply Declared_parseLines_groups in E. cbv zeta in E.
    rewrite Els, (groups_of_sections _ _ Hleading Hsections) in E. exact E.
Qed.

End GroupFacts.

(** The mirror of the tank block receives its two disks; the two bare
    disks of the scratch block go to one synthetic group.  Read as
    pointers, the one entry of the record is the address of the object;
    read with the declared type, it is the group without its disks. *)
Lemma parseLines_groups_witness :
  (exists z' n,
     @parseLines SpecModel.helpers (with_Name "tank" emptyExportedZpool) []
       (block_body Sample.tank) =
     Done (z', [mkVdevGroup (mkVdev "mirror-0" "ONLINE")
                  [mkVdev "sda" "ONLINE"; mkVdev "sdb" "ONLINE"]], n) /\
     Vdevs z' = [0]) /\
  (exists z' n,
     @Declared.parseLines SpecModel.helpers
       (Declared.with_Name "tank" Declared.emptyExportedZpool) []
       (block_body Sample.tank) =
     Done (z', [mkVdevGroup (mkVdev "mirror-0" "ONLINE")
                  [mkVdev "sda" "ONLINE"; mkVdev "sdb" "ONLINE"]], n) /\
     Declared.Vdevs z' = [mkVdevGroup (mkVdev "mirror-0" "ONLINE") []]) /\
  (exists z' n,
     @parseLines SpecModel.helpers (with_Name "scratch" emptyExportedZpool) []
       (block_body Sample.scratch) =
     Done (z', [mkVdevGroup (mkVdev "fileordisk" "")
                  [mkVdev "sdc" "ONLINE"; mkVdev "sdd" "ONLINE"]], n) /\
     Vdevs z' = [0]) /\
  (exists z' n,
     @Declared.parseLines SpecModel.helpers
       (Declared.with_Name "scratch" Declared.emptyExportedZpool) []
       (block_body Sample.scratch) =
     Done (z', [mkVdevGroup (mkVdev "fileordisk" "")
                  [mkVdev "sdc" "ONLINE"; mkVdev "sdd" "ONLINE"]], n) /\
     Declared.Vdevs z' = [mkVdevGroup (mkVdev "fileordisk" "") []]).
Proof.
  destruct (@parseLines_groups SpecModel.helpers "tank" (block_body Sample.tank)
    [] [(["mirror-0"; "ONLINE"], [["sda"; "ONLINE"]; ["sdb"; "ONLINE"]])] eq_refl)
    as [Tp Td]; [constructor | repeat constructor |].
  destruct (@parseLines_groups SpecModel.helpers "scratch" (block_body Sample.scratch)
    [["sdc"; "ONLINE"]; ["sdd"; "ONLINE"]] [] eq_refl)
    as [Sp Sd]; [repeat constructor | constructor |].
  split; [|split; [|split]].
  - assert (exists z' h' n,
      @parseLines SpecModel.helpers (with_Name "tank" emptyExportedZpool) []
        (block_body Sample.tank) = Done (z', h', n)) as (z' & h' & n & E)
      by (do 3 eexists; vm_compute; reflexivity).
    destruct (Tp (with_Name "tank" emptyExportedZpool) z' [] h' n eq_refl E) as [Eh Ev].
    exists z', n. rewrite Eh in E. split; [exact E | exact Ev].
  - assert (exists z' h' n,
      @Declared.parseLines SpecModel.helpers
        (Declared.with_Name "tank" Declared.emptyExportedZpool) []
        (block_body Sample.tank) = Done (z', h', n)) as (z' & h' & n & E)
      by (do 3 eexists; vm_compute; reflexivity).
    destruct (Td (Declared.with_Name "tank" Declared.emptyExportedZpool) z' [] h' n eq_refl E) as [Eh Ev].
    exists z', n. rewrite Eh in E. split; [exact E | exact Ev].
  - assert (exists z' h' n,
      @parseLines SpecModel.helpers (with_Name "scratch" emptyExportedZpool) []
        (block_body Sample.scratch) = Done (z', h', n)) as (z' & h' & n & E)
      by (do 3 eexists; vm_compute; reflexivity).
    destruct (Sp (with_Name "scratch" emptyExportedZpool) z' [] h' n eq_refl E) as [Eh Ev].
    exists z', n. rewrite Eh in E. split; [exact E | exact Ev].
  - assert (exists z' h' n,
      @Declared.parseLines SpecModel.helpers
        (Declared.with_Name "scratch" Declared.emptyExportedZpool) []
        (block_body Sample.scratch) = Done (z', h', n)) as (z' & h' & n & E)
      by (do 3 eexists; vm_compute; reflexivity).
    destruct (Sd (Declared.with_Name "scratch" Declared.emptyExportedZpool) z' [] h' n eq_refl E) as [Eh Ev].
    exists z', n. rewrite Eh in E. split; [exact E | exact Ev].
Defined.

(** The scanner does not strip a trailing ["-<digits>"].  Stripped of
    such a suffix the token [mirror-a] is itself and no group kind, so the
    specification takes its line for a device line of the group [mirror-0];
    the scanner cuts the token at its first ["-"], finds the kind [mirror],
    and opens a second group.  The group [mirror-0] stays without devices,
    in the objects and in the record, however [Vdevs] is read. *)
Lemma parseLines_groups_counterexample :
  @stated_group_header SpecModel.helpers ["mirror-0"; "ONLINE"] = true /\
  @stated_group_header SpecModel.helpers ["mirror-a"; "ONLINE"] = false /\
  structural "tank" false false [["mirror-0"; "ONLINE"]; ["mirror-a"; "ONLINE"]] =
    [["mirror-0"; "ONLINE"]; ["mirror-a"; "ONLINE"]] /\
  (exists z' n,
    @parseLines SpecModel.helpers (with_Name "tank" emptyExportedZpool) []
      [["mirror-0"; "ONLINE"]; ["mirror-a"; "ONLINE"]] =
    Done (z', [mkVdevGroup (mkVdev "mirror-0" "ONLINE") [];
               mkVdevGroup (mkVdev "mirror-a" "ONLINE") []], n) /\
    Vdevs z' = [0; 1]) /\
  (exists z' n,
    @Declared.parseLines SpecModel.helpers
      (Declared.with_Name "tank" Declared.emptyExportedZpool) []
      [["mirror-0"; "ONLINE"]; ["mirror-a"; "ONLINE"]] =
    Done (z', [mkVdevGroup (mkVdev "mirror-0" "ONLINE") [];
               mkVdevGroup (mkVdev "mirror-a" "ONLINE") []], n) /\
    Declared.Vdevs z' = [mkVdevGroup (mkVdev "mirror-0" "ONLINE") [];
                         mkVdevGroup (mkVdev "mirror-a" "ONLINE") []]).
Proof.
  split; [reflexivity |]. split; [reflexivity |]. split; [reflexivity |].
  split; do 2 eexists; (split; [vm_compute; reflexivity | reflexivity]).
Qed.

(** ** The import action *)

Section ImportFacts.
Context {W : Type} `{CommandRunner W}.

(** [Import] starts the tool once, with [importArgs], and returns the
    error of that call. *)
Lemma Import_runs_tool (z : ExportedZpool) (tryForce : bool) (w : W) :
  Import z tryForce w =
  ((zpoolOutput (importArgs z tryForce) w).1.2, (zpoolOutput (importArgs z tryForce) w).2).
Proof.
  unfold Import. destruct (zpoolOutput _ _) as [[out err] w']. reflexivity.
Qed.

End ImportFacts.

(** C5. [Import] hands the tool the arguments [import], the flags and
    the identifier of the record; the flags are [-N], followed by [f]
    exactly when [tryForce] is set, followed by [D] exactly when the state
    text has [DESTROYED] as a substring.  A record in state
    [ONLINE (DESTROYED)] imported with [tryForce] gives [-NfD]. *)
Theorem Import_arguments (z : ExportedZpool) (tryForce : bool) :
  (exists force destroyed,
     importArgs z tryForce = ["import"; ("-N" ++ force ++ destroyed)%string; Id z] /\
     (force = "f" /\ tryForce = true \/ force = "" /\ tryForce = false) /\
     (destroyed = "D" /\
        (exists before after, State z = (before ++ "DESTROYED" ++ after)%string) \/
      destroyed = "" /\
        ~ (exists before after, State z = (before ++ "DESTROYED" ++ after)%string))) /\
  (State z = "ONLINE (DESTROYED)" -> tryForce = true ->
   importArgs z tryForce = ["import"; "-NfD"; Id z]) /\
  (forall (W : Type) (R : CommandRunner W) (w : W),
     Import z tryForce w =
     ((zpoolOutput (importArgs z tryForce) w).1.2,
      (zpoolOutput (importArgs z tryForce) w).2)).
Proof.
  split; [|split].
  - unfold importArgs.
    exists (if tryForce then "f" else ""),
           (if Contains (State z) "DESTROYED" then "D" else "").
    split; [|split].
    + destruct tryForce, (Contains (State z) "DESTROYED"); reflexivity.
    + destruct tryForce; auto.
    + destruct (Contains (State z) "DESTROYED") eqn:E.
      * left. split; [reflexivity | apply Contains_spec, E].
      * right. split; [reflexivity |]. intros Hsub.
        apply Contains_spec in Hsub. congruence.
  - intros Hs ->. unfold importArgs. rewrite Hs. reflexivity.
  - intros W R w. apply Import_runs_tool.
Qed.

(** The record of the specification's fourth scenario: state
    [ONLINE (DESTROYED)], forced import. *)
Lemma Import_arguments_witness :
  importArgs (with_State "ONLINE (DESTROYED)" (with_Id "789" emptyExportedZpool)) true =
  ["import"; "-NfD"; "789"].
Proof.
  exact (proj1 (proj2 (Import_arguments
    (with_State "ONLINE (DESTROYED)" (with_Id "789" emptyExportedZpool)) true))
    eq_refl eq_refl).
Defined.

(** ** The loop of [ListExportedZpools] *)

Section ListingFacts.
Context `{Helpers}.

(** The loop stops at the end of the output. *)
Lemma collect_stop (out : list line) (i : nat) (pools : list ExportedZpool) (h : heap) :
  out !! i = None -> collect out i pools h = Done (pools, h).
Proof.
  intros E. rewrite collect_equation_1.
  destruct (inspect (out !! i)) as [[l|] E']; [congruence | reflexivity].
Qed.

(** One turn of the loop. *)
Lemma collect_turn (out : list line) (i : nat) (pools : list ExportedZpool) (h : heap)
    (l : line) :
  out !! i = Some l ->
  collect out i pools h =
    tok ← at_index l 0;
    if String.eqb tok "pool:" then
      name ← at_index l 1;
      r ← parseLines (with_Name name emptyExportedZpool) h (drop (i + 1) out);
      collect out (i + r.2 + 1) (pools ++ [r.1.1]) r.1.2
    else collect out (i + 1) pools h.
Proof.
  intros E. rewrite collect_equation_1. unfold mbind, outcome_bind.
  destruct (inspect (out !! i)) as [[l'|] E']; [|congruence].
  assert (l' = l) as -> by congruence. cbn [collect_unfold_clause_1].
  destruct (at_index l 0) as [tok|]; [|reflexivity].
  destruct (String.eqb tok "pool:"); [|reflexivity].
  destruct (at_index l 1) as [name|]; [|reflexivity].
  destruct (parseLines _ _ _) as [[[z h'] n]|]; reflexivity.
Qed.

Lemma collect_passes_over (out : list line) :
  Forall (fun l => passed_over l = true) out ->
  forall i pools h, collect out i pools h = Done (pools, h).
Proof.
  intros Hout i pools h.
  remember (length out - i) as k eqn:Hk. revert i Hk.
  induction k as [|k IH]; intros i Hk.
  - apply collect_stop, lookup_ge_None. lia.
  - destruct (out !! i) as [l|] eqn:El; [|apply collect_stop, El].
    rewrite (collect_turn _ _ _ _ _ El).
    pose proof (proj1 (Forall_lookup _ _) Hout _ _ El) as Hl.
    destruct l as [|tok tail]; [discriminate |]. simpl in Hl.
    apply negb_true_iff in Hl. unfold mbind, outcome_bind. simpl. rewrite Hl.
    apply IH. lia.
Qed.

(** A blank line that follows lines the loop passes over stops the
    loop. *)
Lemma collect_blank_line (preamble rest : list (list string)) :
  Forall (fun l => passed_over l = true) preamble ->
  forall i pools h,
    i <= length preamble ->
    collect (preamble ++ [] :: rest) i pools h = IndexOutOfRange 0 0.
Proof.
  intros Hpre i. remember (length preamble - i) as k eqn:Hk. revert i Hk.
  induction k as [|k IH]; intros i Hk pools h Hi.
  - assert (i = length preamble) as -> by lia.
    rewrite (collect_turn _ _ _ _ [] (list_lookup_middle _ _ _ _ eq_refl)).
    reflexivity.
  - destruct (lookup_lt_is_Some_2 preamble i) as [l El]; [lia |].
    rewrite (collect_turn _ _ _ _ l) by (rewrite lookup_app_l by lia; exact El).
    pose proof (proj1 (Forall_lookup _ _) Hpre _ _ El) as Hl.
    destruct l as [|tok tail]; [discriminate |]. simpl in Hl.
    apply negb_true_iff in Hl. unfold mbind, outcome_bind. simpl. rewrite Hl.
    apply IH; lia.
Qed.

(** The loop of the listing looks at the output from its index on. *)
Lemma collect_shift (skip out : list line) :
  forall i pools h,
    collect (skip ++ out) (length skip + i) pools h = collect out i pools h.
Proof.
  intros i. remember (length out - i) as k eqn:Hk. revert i Hk.
  induction k as [k IH] using lt_wf_ind. intros i Hk pools h.
  assert ((skip ++ out) !! (length skip + i) = out !! i) as El
    by (rewrite lookup_app_r by lia; f_equal; lia).
  destruct (out !! i) as [l|] eqn:Eo.
  - pose proof (lookup_lt_Some _ _ _ Eo) as Hi.
    rewrite (collect_turn _ _ _ _ _ El), (collect_turn _ _ _ _ _ Eo).
    replace (length skip + i + 1) with (length skip + (i + 1)) by lia.
    rewrite drop_app_add. unfold mbind, outcome_bind.
    destruct (at_index l 0) as [tok|]; [|reflexivity].
    destruct (String.eqb tok "pool:").
    + destruct (at_index l 1) as [name|]; [|reflexivity].
      destruct (parseLines _ _ _) as [[[z h'] n]|]; [|reflexivity]. simpl.
      replace (length skip + i + n + 1) with (length skip + (i + n + 1)) by lia.
      apply (IH (length out - (i + n + 1))); [lia | reflexivity].
    + apply (IH (length out - (i + 1))); [lia | reflexivity].
  - rewrite (collect_stop _ _ _ _ El), (collect_stop _ _ _ _ Eo). reflexivity.
Qed.

(** Lines before the first block are passed over. *)
Lemma collect_preamble (preamble rest : list line) :
  Forall (fun l => passed_over l = true) preamble ->
  forall pools h, collect (preamble ++ rest) 0 pools h = collect rest 0 pools h.
Proof.
  induction 1 as [|l preamble Hl _ IH]; intros pools h; [reflexivity |].
  rewrite (collect_turn ((l :: preamble) ++ rest) 0 pools h l eq_refl).
  destruct l as [|tok tail]; [discriminate |]. simpl in Hl.
  apply negb_true_iff in Hl. unfold mbind, outcome_bind. simpl. rewrite Hl.
  rewrite (collect_shift [tok :: tail] (preamble ++ rest) 0). apply IH.
Qed.

Context {W : Type} `{CommandRunner W}.

(** Without a marker and without a blank line in either output, the
    listing is empty and there is no error. *)
Lemma ListExportedZpools_nothing_to_import (w w1 w2 : W) (h : heap)
    (out out' : list line) :
  zpoolOutput ["import"] w = ((out, None), w1) ->
  zpoolOutput ["import"; "-D"] w1 = ((out', None), w2) ->
  Forall (fun l => passed_over l = true) out ->
  Forall (fun l => passed_over l = true) out' ->
  ListExportedZpools w h = (Done ([], None, h), w2).
Proof.
  intros E1 E2 Hout Hout'. unfold ListExportedZpools.
  rewrite E1, (collect_passes_over _ Hout), E2, (collect_passes_over _ Hout').
  reflexivity.
Qed.

(** C4, at the failing input.  A blank line is an empty token sequence;
    the loop of [ListExportedZpools] reads [out[i][0]] of every line it
    meets, so an output in which a blank line comes before any marker stops
    the call with a panic, before the second call of the tool: neither a
    collection nor an error is returned. *)
Theorem ListExportedZpools_blank_line (w w1 : W) (h : heap)
    (preamble rest : list (list string)) :
  zpoolOutput ["import"] w = ((preamble ++ [] :: rest, None), w1) ->
  Forall (fun l => passed_over l = true) preamble ->
  ListExportedZpools w h = (IndexOutOfRange 0 0, w1).
Proof.
  intros E Hpre. unfold ListExportedZpools. rewrite E.
  rewrite (collect_blank_line _ _ Hpre) by lia. reflexivity.
Qed.

(** C6. The tool is started with [import] and then, from the state the
    first call left, with [import -D].  An error of the first call is
    returned at once with no records; an error of the second call is
    returned with no records either, the records of the first output are
    dropped; records are returned only when both calls succeed. *)
Theorem ListExportedZpools_errors (w : W) (h : heap) :
  (forall out e w1,
     zpoolOutput ["import"] w = ((out, Some e), w1) ->
     ListExportedZpools w h = (Done ([], Some e, h), w1)) /\
  (forall out pools h1 w1 out' e w2,
     zpoolOutput ["import"] w = ((out, None), w1) ->
     collect out 0 [] h = Done (pools, h1) ->
     zpoolOutput ["import"; "-D"] w1 = ((out', Some e), w2) ->
     ListExportedZpools w h = (Done ([], Some e, h1), w2)) /\
  (forall out pools h1 w1 out' pools' h2 w2,
     zpoolOutput ["import"] w = ((out, None), w1) ->
     collect out 0 [] h = Done (pools, h1) ->
     zpoolOutput ["import"; "-D"] w1 = ((out', None), w2) ->
     collect out' 0 pools h1 = Done (pools', h2) ->
     ListExportedZpools w h = (Done (pools', None, h2), w2)).
Proof.
  unfold ListExportedZpools. repeat split.
  - intros out e w1 ->. reflexivity.
  - intros out pools h1 w1 out' e w2 -> -> ->. reflexivity.
  - intros out pools h1 w1 out' pools' h2 w2 -> -> -> ->. reflexivity.
Qed.

End ListingFacts.

(** A tool that prints one blank line stops the listing with a panic
    after the first call. *)
Lemma ListExportedZpools_blank_line_witness :
  @ListExportedZpools SpecModel.helpers SpecModel.tool SpecModel.runner
    (SpecModel.mkTool [([[]], None); ([], None)] []) [] =
  (IndexOutOfRange 0 0, SpecModel.mkTool [([], None)] [["import"]]).
Proof.
  apply (@ListExportedZpools_blank_line SpecModel.helpers SpecModel.tool SpecModel.runner
    _ _ _ [] []); [reflexivity | constructor].
Defined.

(** The three ways a listing ends, on a tool that answers from a list:
    the first call fails; the second call fails after the first output gave
    a record; both calls succeed. *)
Lemma ListExportedZpools_errors_witness :
  @ListExportedZpools SpecModel.helpers SpecModel.tool SpecModel.runner
    (SpecModel.mkTool [([], Some "exit status 1")] []) [] =
  (Done ([], Some "exit status 1", []), SpecModel.mkTool [] [["import"]]) /\
  (exists h1,
    @ListExportedZpools SpecModel.helpers SpecModel.tool SpecModel.runner
      (SpecModel.mkTool [(block_lines Sample.tank, None); ([], Some "exit status 1")] []) [] =
    (Done ([], Some "exit status 1", h1),
     SpecModel.mkTool [] [["import"]; ["import"; "-D"]])) /\
  (exists pools h2,
    @ListExportedZpools SpecModel.helpers SpecModel.tool SpecModel.runner
      (SpecModel.mkTool [(block_lines Sample.tank, None); (block_lines Sample.gone, None)] []) [] =
    (Done (pools, None, h2), SpecModel.mkTool [] [["import"]; ["import"; "-D"]]) /\
    Name <$> pools = ["tank"; "gone"]).
Proof.
  split; [|split].
  - refine (proj1 (@ListExportedZpools_errors SpecModel.helpers SpecModel.tool
      SpecModel.runner _ _) _ _ _ _). reflexivity.
  - eexists.
    refine (proj1 (proj2 (@ListExportedZpools_errors SpecModel.helpers SpecModel.tool
      SpecModel.runner _ _)) _ _ _ _ _ _ _ _ _ _); [reflexivity | vm_compute; reflexivity | reflexivity].
  - do 2 eexists. split.
    + refine (proj2 (proj2 (@ListExportedZpools_errors SpecModel.helpers SpecModel.tool
        SpecModel.runner _ _)) _ _ _ _ _ _ _ _ _ _ _ _);
        [reflexivity | vm_compute; reflexivity | reflexivity | vm_compute; reflexivity].
    + reflexivity.
Defined.

(** ** Blocks of a report *)

Section BlockFacts.
Context `{Helpers}.

(** The heap has no influence on the header fields, on the count, or
    on whether the scan returns. *)
Lemma body_headers (s1 s2 : scan) (l : line) :
  headers s1 = headers s2 ->
  match body s1 l, body s2 l with
  | Done (Continue a), Done (Continue b) => headers a = headers b
  | Done (Return a n), Done (Return b m) => headers a = headers b /\ n = m
  | IndexOutOfRange i k, IndexOutOfRange j m => i = j /\ k = m
  | _, _ => False
  end.
Proof.
  destruct s1 as [[nm1 id1 st1 stat1 act1 vd1] o1 cur1 af1 cf1 lc1].
  destruct s2 as [[nm2 id2 st2 stat2 act2 vd2] o2 cur2 af2 cf2 lc2].
  unfold headers. simpl. intros [= -> -> -> -> -> -> -> ->].
  unfold body. destruct l as [|tok tail]; simpl; [reflexivity |].
  unfold mbind, outcome_bind.
  dispatch; simpl; auto; destruct cur1, cur2; reflexivity.
Qed.

Lemma loop_headers (lines : list line) :
  forall s1 s2,
    headers s1 = headers s2 ->
    match loop s1 lines, loop s2 lines with
    | Done (a, n), Done (b, m) => headers a = headers b /\ n = m
    | IndexOutOfRange i k, IndexOutOfRange j m => i = j /\ k = m
    | _, _ => False
    end.
Proof.
  induction lines as [|l rest IH]; intros s1 s2 Hh; simpl.
  - split; [exact Hh |]. unfold headers in Hh. congruence.
  - pose proof (body_headers s1 s2 l Hh) as Hb. unfold mbind, outcome_bind.
    destruct (body s1 l) as [[a|a n]|], (body s2 l) as [[b|b m]|]; try contradiction;
      first [apply IH; assumption | assumption].
Qed.

(** The scan of a block stops where the next block begins: the lines
    from the next marker on have no influence on it. *)
Lemma parseLines_stops_at_marker (z : ExportedZpool) (h : heap)
    (body_lines rest : list line) :
  Forall (fun l => is_marker l = false) body_lines ->
  (rest = [] \/ exists m rest', rest = m :: rest' /\ is_marker m = true) ->
  parseLines z h (body_lines ++ rest) = parseLines z h body_lines.
Proof.
  intros Hbody Hrest. unfold parseLines. rewrite (loop_app _ _ Hbody).
  unfold mbind, outcome_bind.
  destruct (loop (enter z h) body_lines) as [[s1 k]|] eqn:E; [|reflexivity].
  pose proof (loop_runs_out _ Hbody _ _ _ E) as ->. simpl.
  destruct Hrest as [-> | (m & rest' & -> & Hm)]; [reflexivity |].
  destruct m as [|tok tail]; [discriminate |]. simpl in Hm.
  simpl. unfold body, mbind, outcome_bind. rewrite Hm. simpl.
  rewrite Nat.add_sub. reflexivity.
Qed.

(** The groups of a scan are found behind its pointers in every heap
    that extends the heap the scan left. *)
Lemma lookup_allocated (h groups ext : list VdevGroup) :
  (fun p => (h ++ groups ++ ext) !! p) <$> seq (length h) (length groups) =
  Some <$> groups.
Proof.
  revert h. induction groups as [|g groups IH]; intros h; [reflexivity |].
  cbn [length seq fmap list_fmap]. f_equal.
  - apply list_lookup_middle. reflexivity.
  - specialize (IH (h ++ [g])). rewrite length_app, Nat.add_1_r in IH.
    rewrite <- app_assoc in IH. exact IH.
Qed.

(** The record a block gives in a listing is the record it gives when
    parsed alone, from whatever heap the scan starts and whatever is
    allocated after it. *)
Lemma parseLines_block_record (name : string) (h : heap) (lines : list line) :
  is_Some (match parseLines (with_Name name emptyExportedZpool) [] lines with
           | Done r => Some r
           | IndexOutOfRange _ _ => None
           end) ->
  exists z h0 groups n,
    parseLines (with_Name name emptyExportedZpool) [] lines = Done (z, h0, n) /\
    exists z',
      parseLines (with_Name name emptyExportedZpool) h lines = Done (z', h ++ groups, n) /\
      forall ext, snapshot (h ++ groups ++ ext) z' = snapshot h0 z.
Proof.
  unfold parseLines, mbind, outcome_bind.
  pose proof (loop_headers lines (enter (with_Name name emptyExportedZpool) [])
                (enter (with_Name name emptyExportedZpool) h) eq_refl) as Hh.
  destruct (loop (enter _ []) lines) as [[s0 n0]|] eqn:E0; [|intros [x [=]]].
  destruct (loop (enter _ h) lines) as [[s1 n1]|] eqn:E1; [|contradiction].
  destruct Hh as [Hh <-]. intros _.
  apply loop_groups in E0, E1. simpl in E0, E1.
  destruct E0 as [Eo0 Ev0], E1 as [Eo1 Ev1].
  set (groups := groups_of_block (structural name false false lines)) in *.
  exists (ez s0), (objs s0), groups, n0. split; [reflexivity |].
  exists (ez s1). split; [simpl; rewrite Eo1; reflexivity |].
  intros ext. unfold snapshot. unfold headers in Hh.
  injection Hh as EName EId EState EStatus EAction _ _ _.
  rewrite EName, EId, EState, EStatus, EAction, Ev0, Ev1, Eo0. f_equal.
  rewrite (lookup_allocated h groups ext).
  rewrite <- (lookup_allocated [] groups []), app_nil_r. reflexivity.
Qed.

(** The blocks of a report give one record each, in their order, and
    the record of a block is the one the block gives when parsed alone. *)
Lemma collect_blocks (blocks : list block) :
  Forall block_ok blocks ->
  forall pools h,
  exists zs groups,
    collect (concat (block_lines <$> blocks)) 0 pools h = Done (pools ++ zs, h ++ groups) /\
    forall ext,
      Forall2 (fun z b => record_of_block b = Some (snapshot (h ++ groups ++ ext) z))
              zs blocks.
Proof.
  induction 1 as [|b blocks [Hbody Hrec] _ IH]; intros pools h.
  - exists [], []. rewrite !app_nil_r. split; [apply collect_stop; reflexivity |].
    intros ext. constructor.
  - change (concat (block_lines <$> b :: blocks))
      with (block_lines b ++ concat (block_lines <$> blocks)).
    set (rest := concat (block_lines <$> blocks)) in *.
    rewrite (collect_turn (block_lines b ++ rest) 0 pools h
               ("pool:" :: block_name b :: block_extra b) eq_refl).
    unfold mbind, outcome_bind. simpl. rewrite drop_0.
    rewrite parseLines_stops_at_marker; [|exact Hbody|].
    2:{ subst rest. destruct blocks as [|b' blocks]; [left; reflexivity |].
        right. eexists _, _. split; reflexivity. }
    unfold record_of_block in Hrec.
    destruct (parseLines_block_record (block_name b) h (block_body b))
      as (z0 & h0 & groups & n & E0 & z' & E' & Hsnap).
    { destruct (parseLines _ [] _) as [r|]; [eauto | destruct Hrec as [x [=]]]. }
    rewrite E'. simpl.
    pose proof (parseLines_count _ _ _ _ _ _ E') as ->.
    rewrite (next_marker_none _ Hbody).
    change (("pool:" :: block_name b :: block_extra b) :: block_body b ++ rest)
      with (block_lines b ++ rest).
    replace (length (block_body b) + 1) with (length (block_lines b) + 0)
      by (unfold block_lines; simpl; lia).
    rewrite collect_shift.
    destruct (IH (pools ++ [z']) (h ++ groups)) as (zs & groups' & Ec & Hzs).
    exists (z' :: zs), (groups ++ groups').
    rewrite Ec, <- !app_assoc. split; [reflexivity |].
    intros ext. rewrite <- (app_assoc groups groups' ext). constructor.
    + unfold record_of_block. rewrite E0, <- (Hsnap (groups' ++ ext)). reflexivity.
    + specialize (Hzs ext). rewrite <- !app_assoc in Hzs. exact Hzs.
Qed.

Context {W : Type} `{CommandRunner W}.

(** What holds of the reports the scanner gets through, lines that
    belong to no block coming only before the first block and none of them
    blank: the listing returns one record for every block, the records of
    the blocks of the first output in their order, then those of the second
    output in their order, and the record of a block is the record the
    block gives when it is parsed alone.  The entries of [Vdevs] are
    compared as the pointers the scanner appends, by the groups behind
    them. *)
Lemma ListExportedZpools_blocks (w w1 w2 : W) (h : heap)
    (preamble preamble' : list line) (blocks blocks' : list block) :
  zpoolOutput ["import"] w = ((report preamble blocks, None), w1) ->
  zpoolOutput ["import"; "-D"] w1 = ((report preamble' blocks', None), w2) ->
  Forall (fun l => passed_over l = true) preamble ->
  Forall (fun l => passed_over l = true) preamble' ->
  Forall block_ok blocks ->
  Forall block_ok blocks' ->
  exists pools h',
    ListExportedZpools w h = (Done (pools, None, h'), w2) /\
    Forall2 (fun z b => record_of_block b = Some (snapshot h' z)) pools (blocks ++ blocks').
Proof.
  intros E1 E2 Hpre Hpre' Hblocks Hblocks'. unfold ListExportedZpools, report in *.
  rewrite E1. cbv beta iota. rewrite (collect_preamble _ _ Hpre).
  destruct (collect_blocks _ Hblocks [] h) as (zs & groups & Ec & Hzs). rewrite Ec, E2.
  cbv beta iota. rewrite (collect_preamble _ _ Hpre').
  destruct (collect_blocks _ Hblocks' ([] ++ zs) (h ++ groups)) as (zs' & groups' & Ec' & Hzs').
  rewrite Ec'. exists (([] ++ zs) ++ zs'), ((h ++ groups) ++ groups').
  split; [reflexivity |]. simpl. apply Forall2_app.
  - specialize (Hzs groups'). rewrite <- app_assoc. exact Hzs.
  - specialize (Hzs' []). rewrite app_nil_r in Hzs'. exact Hzs'.
Qed.

(** A scan panics on the same line from whatever heap it starts. *)
Lemma parseLines_panics_on_any_heap (z : ExportedZpool) (h : heap) (lines : list line)
    (i k : nat) :
  parseLines z [] lines = IndexOutOfRange i k ->
  parseLines z h lines = IndexOutOfRange i k.
Proof.
  unfold parseLines, mbind, outcome_bind.
  pose proof (loop_headers lines (enter z []) (enter z h) eq_refl) as Hh.
  destruct (loop (enter z []) lines) as [[s0 n0]|]; [discriminate |].
  destruct (loop (enter z h) lines) as [[s1 n1]|]; [contradiction |].
  destruct Hh as [-> ->]. intros E. exact E.
Qed.

(** The loop gets past the blocks the scanner gets through, with one
    record for each, and goes on with what follows them. *)
Lemma collect_blocks_then (blocks : list block) :
  Forall block_ok blocks ->
  forall (tail : list line) pools h,
    (tail = [] \/ exists m tail', tail = m :: tail' /\ is_marker m = true) ->
    exists zs groups,
      collect (concat (block_lines <$> blocks) ++ tail) 0 pools h =
      collect tail 0 (pools ++ zs) (h ++ groups) /\
      length zs = length blocks.
Proof.
  induction 1 as [|b blocks [Hbody Hrec] _ IH]; intros tail pools h Htail.
  - exists [], []. rewrite !app_nil_r. split; reflexivity.
  - replace (concat (block_lines <$> b :: blocks) ++ tail)
      with (block_lines b ++ (concat (block_lines <$> blocks) ++ tail))
      by apply (app_assoc (block_lines b)).
    set (rest := concat (block_lines <$> blocks) ++ tail) in *.
    rewrite (collect_turn (block_lines b ++ rest) 0 pools h
               ("pool:" :: block_name b :: block_extra b) eq_refl).
    unfold mbind, outcome_bind. simpl. rewrite drop_0.
    rewrite parseLines_stops_at_marker; [|exact Hbody|].
    2:{ subst rest. destruct blocks as [|b' blocks]; [exact Htail |].
        right. eexists _, _. split; reflexivity. }
    unfold record_of_block in Hrec.
    destruct (parseLines_block_record (block_name b) h (block_body b))
      as (z0 & h0 & groups & n & E0 & z' & E' & Hsnap).
    { destruct (parseLines _ [] _) as [r|]; [eauto | destruct Hrec as [x [=]]]. }
    rewrite E'. simpl.
    pose proof (parseLines_count _ _ _ _ _ _ E') as ->.
    rewrite (next_marker_none _ Hbody).
    change (("pool:" :: block_name b :: block_extra b) :: block_body b ++ rest)
      with (block_lines b ++ rest).
    replace (length (block_body b) + 1) with (length (block_lines b) + 0)
      by (unfold block_lines; simpl; lia).
    rewrite collect_shift. subst rest.
    destruct (IH tail (pools ++ [z']) (h ++ groups) Htail) as (zs & groups' & Ec & Hzs).
    exists (z' :: zs), (groups ++ groups').
    rewrite Ec, <- !app_assoc. split; [reflexivity | simpl; lia].
Qed.

(** C9.  The listing does not return one record per block on every
    report of back-to-back blocks: a block on which the scanner panics
    takes the whole listing with it.  Whatever blocks the scanner has got
    through before it and whatever blocks follow it, the call panics as the
    scan of that block alone does, and returns no record, for no block. *)
Theorem ListExportedZpools_blocks_panic (w w1 : W) (h : heap)
    (preamble : list line) (blocks : list block) (b : block) (rest : list block)
    (i k : nat) :
  zpoolOutput ["import"] w = ((report preamble (blocks ++ b :: rest), None), w1) ->
  Forall (fun l => passed_over l = true) preamble ->
  Forall block_ok blocks ->
  Forall (fun l => is_marker l = false) (block_body b) ->
  parseLines (with_Name (block_name b) emptyExportedZpool) [] (block_body b) =
    IndexOutOfRange i k ->
  ListExportedZpools w h = (IndexOutOfRange i k, w1).
Proof.
  intros E Hpre Hblocks Hbody Hpanic. unfold ListExportedZpools, report.
  unfold report in E. rewrite E. cbv beta iota. rewrite (collect_preamble _ _ Hpre).
  rewrite fmap_app, concat_app.
  change (concat (block_lines <$> b :: rest))
    with (block_lines b ++ concat (block_lines <$> rest)).
  destruct (collect_blocks_then _ Hblocks (block_lines b ++ concat (block_lines <$> rest))
              [] h) as (zs & groups & Ec & _).
  { right. eexists _, _. split; reflexivity. }
  rewrite Ec.
  rewrite (collect_turn (block_lines b ++ concat (block_lines <$> rest)) 0 _ _
             ("pool:" :: block_name b :: block_extra b) eq_refl).
  unfold mbind, outcome_bind. simpl. rewrite drop_0.
  rewrite parseLines_stops_at_marker; [|exact Hbody|].
  2:{ destruct rest as [|b' rest]; [left; reflexivity |].
      right. eexists _, _. split; reflexivity. }
  rewrite (parseLines_panics_on_any_heap _ _ _ _ _ Hpanic). reflexivity.
Qed.

End BlockFacts.

(** Every output whose marker lines carry a pool name is a report:
    the lines before the first marker, then blocks without a marker in
    their bodies. *)
Lemma report_exists (out : list (list string)) :
  Forall (fun l => is_marker l = true -> 2 <= length l) out ->
  exists preamble blocks,
    out = report preamble blocks /\
    Forall (fun l => is_marker l = false) preamble /\
    Forall (fun b => Forall (fun l => is_marker l = false) (block_body b)) blocks.
Proof.
  induction 1 as [|l out Hl _ (preamble & blocks & -> & Hpre & Hblocks)].
  - exists [], []. repeat split; constructor.
  - destruct (is_marker l) eqn:Em.
    + destruct l as [|tok [|name extra]]; [discriminate | simpl in Hl; lia |].
      simpl in Em. apply String.eqb_eq in Em. subst tok.
      exists [], (mkBlock name extra preamble :: blocks).
      repeat split; [constructor |]. constructor; assumption.
    + exists (l :: preamble), blocks. repeat split; [constructor |]; assumption.
Qed.

Lemma Sample_blocks_ok :
  @block_ok SpecModel.helpers Sample.tank /\
  @block_ok SpecModel.helpers Sample.scratch /\
  @block_ok SpecModel.helpers Sample.gone.
Proof.
  repeat split; try (repeat constructor); vm_compute; eexists; reflexivity.
Qed.

(** The tank block, then the block of a pool whose [config:] section
    has the one-token line [logs], then the scratch block: the call panics
    at [line[1]] of that line, and there is no record, not of the tank pool
    either. *)
Lemma ListExportedZpools_blocks_panic_witness :
  @ListExportedZpools SpecModel.helpers SpecModel.tool SpecModel.runner
    (SpecModel.mkTool
       [(report []
           ([Sample.tank] ++
            mkBlock "data" []
              [["id:"; "7"]; ["state:"; "ONLINE"]; ["config:"]; [];
               ["data"; "ONLINE"]; ["sdh"; "ONLINE"]; ["logs"]; ["sdi"; "ONLINE"]]
            :: [Sample.scratch]), None);
        (report [] [Sample.gone], None)] []) [] =
  (IndexOutOfRange 1 1,
   SpecModel.mkTool [(report [] [Sample.gone], None)] [["import"]]).
Proof.
  apply (@ListExportedZpools_blocks_panic SpecModel.helpers SpecModel.tool SpecModel.runner
    (SpecModel.mkTool
       [(report []
           ([Sample.tank] ++
            mkBlock "data" []
              [["id:"; "7"]; ["state:"; "ONLINE"]; ["config:"]; [];
               ["data"; "ONLINE"]; ["sdh"; "ONLINE"]; ["logs"]; ["sdi"; "ONLINE"]]
            :: [Sample.scratch]), None);
        (report [] [Sample.gone], None)] [])
    (SpecModel.mkTool [(report [] [Sample.gone], None)] [["import"]])
    [] [] [Sample.tank]
    (mkBlock "data" []
       [["id:"; "7"]; ["state:"; "ONLINE"]; ["config:"]; [];
        ["data"; "ONLINE"]; ["sdh"; "ONLINE"]; ["logs"]; ["sdi"; "ONLINE"]])
    [Sample.scratch] 1 1 eq_refl).
  - apply List.Forall_nil.
  - apply List.Forall_cons; [|apply List.Forall_nil]. exact (proj1 Sample_blocks_ok).
  - repeat (apply List.Forall_cons; [reflexivity |]). apply List.Forall_nil.
  - reflexivity.
Defined.

(** A listing of the tank and scratch pools, then of a destroyed pool:
    three records, in this order, each the record of its own block. *)
Lemma ListExportedZpools_blocks_witness :
  exists pools h',
    @ListExportedZpools SpecModel.helpers SpecModel.tool SpecModel.runner
      (SpecModel.mkTool
         [(report [] [Sample.tank; Sample.scratch], None);
          (report [] [Sample.gone], None)] []) [] =
    (Done (pools, None, h'), SpecModel.mkTool [] [["import"]; ["import"; "-D"]]) /\
    Forall2 (fun z b => @record_of_block SpecModel.helpers b = Some (snapshot h' z))
      pools ([Sample.tank; Sample.scratch] ++ [Sample.gone]) /\
    Name <$> pools = ["tank"; "scratch"; "gone"].
Proof.
  destruct Sample_blocks_ok as (Htank & Hscratch & Hgone).
  destruct (@ListExportedZpools_blocks SpecModel.helpers SpecModel.tool SpecModel.runner
    (SpecModel.mkTool
       [(report [] [Sample.tank; Sample.scratch], None);
        (report [] [Sample.gone], None)] [])
    (SpecModel.mkTool [(report [] [Sample.gone], None)] [["import"]])
    (SpecModel.mkTool [] [["import"]; ["import"; "-D"]])
    [] [] [] [Sample.tank; Sample.scratch] [Sample.gone])
    as (pools & h' & E & F);
    try first [ reflexivity
              | solve [repeat (apply List.Forall_cons; [assumption |]); apply List.Forall_nil] ].
  exists pools, h'. split; [exact E |]. split; [exact F |].
  vm_compute in E. injection E as <- _. reflexivity.
Defined.

(** ** The earlier parser *)

Section SupersededFacts.
Context `{Helpers}.

(** A turn of the loop appends to the record at most one group, and
    the group it appends has no device. *)
Lemma Superseded_body_groups (s : Superseded.scan) (l : line) (c : Superseded.control) :
  Superseded.body s l = Done c ->
  exists groups,
    Superseded.Vdevs (Superseded.ez
      match c with Superseded.Continue s' => s' | Superseded.Return s' _ => s' end) =
    Superseded.Vdevs (Superseded.ez s) ++ groups /\
    Forall no_devices groups.
Proof.
  unfold Superseded.body. destruct l as [|tok tail].
  - intros [= <-]. exists []. simpl. rewrite app_nil_r. auto.
  - unfold mbind, outcome_bind. dispatch; intros [= <-]; simpl;
      first [ exists []; rewrite app_nil_r; split; [reflexivity | constructor]
            | eexists; split; [reflexivity | repeat constructor] ].
Qed.

Lemma Superseded_loop_groups (lines : list line) :
  forall s s' n,
    Superseded.loop s lines = Done (s', n) ->
    exists groups,
      Superseded.Vdevs (Superseded.ez s') = Superseded.Vdevs (Superseded.ez s) ++ groups /\
      Forall no_devices groups.
Proof.
  induction lines as [|l rest IH]; intros s s' n; simpl.
  - intros [= <- _]. exists []. rewrite app_nil_r. auto.
  - unfold mbind, outcome_bind.
    destruct (Superseded.body s l) as [c|] eqn:Eb; [|discriminate].
    destruct (Superseded_body_groups _ _ _ Eb) as (g1 & E1 & F1).
    destruct c as [s1|s1 k].
    + intros E. destruct (IH _ _ _ E) as (g2 & E2 & F2).
      exists (g1 ++ g2). rewrite E2, E1, app_assoc.
      split; [reflexivity | apply Forall_app; auto].
    + intros [= <- _]. eauto.
Qed.

Lemma Superseded_parseLines_groups (z z' : Superseded.ExportedZpool) (h h' : heap)
    (lines : list line) (n : nat) :
  Superseded.parseLines z h lines = Done (z', h', n) ->
  exists groups,
    Superseded.Vdevs z' = Superseded.Vdevs z ++ groups /\ Forall no_devices groups.
Proof.
  unfold Superseded.parseLines, mbind, outcome_bind.
  destruct (Superseded.loop _ _) as [[s k]|] eqn:E; [|discriminate].
  intros [= <- _ _]. apply (Superseded_loop_groups _ _ _ _ E).
Qed.

Lemma Superseded_collect_stop (out : list line) (i : nat)
    (pools : list Superseded.ExportedZpool) (h : heap) :
  out !! i = None -> Superseded.collect out i pools h = Done (pools, h).
Proof.
  intros E. rewrite Superseded.collect_equation_1.
  destruct (inspect (out !! i)) as [[l|] E']; [congruence | reflexivity].
Qed.

Lemma Superseded_collect_turn (out : list line) (i : nat)
    (pools : list Superseded.ExportedZpool) (h : heap) (l : line) :
  out !! i = Some l ->
  Superseded.collect out i pools h =
    tok ← at_index l 0;
    if String.eqb tok "pool:" then
      r ← Superseded.parseLines
            (Superseded.with_Name tok Superseded.emptyExportedZpool) h (drop (i + 1) out);
      Superseded.collect out (i + r.2 + 1) (pools ++ [r.1.1]) r.1.2
    else Superseded.collect out (i + 1) (pools ++ [Superseded.emptyExportedZpool]) h.
Proof.
  intros E. rewrite Superseded.collect_equation_1. unfold mbind, outcome_bind.
  destruct (inspect (out !! i)) as [[l'|] E']; [|congruence].
  assert (l' = l) as -> by congruence. cbn [Superseded.collect_unfold_clause_1].
  destruct (at_index l 0) as [tok|]; [|reflexivity].
  destruct (String.eqb tok "pool:"); [|reflexivity].
  destruct (Superseded.parseLines _ _ _) as [[[z h'] n]|]; reflexivity.
Qed.

Lemma Superseded_collect_groups (out : list line) :
  forall i pools h pools' h',
    no_devices_recorded pools ->
    Superseded.collect out i pools h = Done (pools', h') ->
    no_devices_recorded pools'.
Proof.
  intros i. remember (length out - i) as k eqn:Hk. revert i Hk.
  induction k as [k IH] using lt_wf_ind. intros i Hk pools h pools' h' Hp.
  destruct (out !! i) as [l|] eqn:El.
  - pose proof (lookup_lt_Some _ _ _ El) as Hi.
    rewrite (Superseded_collect_turn _ _ _ _ _ El). unfold mbind, outcome_bind.
    destruct (at_index l 0) as [tok|]; [|discriminate].
    destruct (String.eqb tok "pool:").
    + destruct (Superseded.parseLines _ _ _) as [[[z h1] n]|] eqn:Ep; [|discriminate].
      simpl. apply (IH (length out - (i + n + 1))); [lia | reflexivity |].
      apply Forall_app. split; [exact Hp |]. constructor; [|constructor].
      destruct (Superseded_parseLines_groups _ _ _ _ _ _ Ep) as (groups & -> & F).
      exact F.
    + apply (IH (length out - (i + 1))); [lia | reflexivity |].
      apply Forall_app. split; [exact Hp |]. repeat constructor.
  - rewrite (Superseded_collect_stop _ _ _ _ El). intros [= <- _]. exact Hp.
Qed.

(** C10. In the parser of [zpool.go] a group enters the record as a
    copy, made when its header line is read and before any device line;
    the devices that follow go to the object behind [curVdevGroup].  Every
    group [parseLines] adds to a record, and every group of every record
    [ListExportedZpools] returns, has an empty device list. *)
Theorem Superseded_groups_have_no_devices :
  (forall z h lines z' h' n,
     Superseded.parseLines z h lines = Done (z', h', n) ->
     exists groups,
       Superseded.Vdevs z' = Superseded.Vdevs z ++ groups /\ Forall no_devices groups) /\
  (forall (W : Type) (R : CommandRunner W) (w : W) h pools err h',
     (Superseded.ListExportedZpools w h).1 = Done (pools, err, h') ->
     no_devices_recorded pools).
Proof.
  split; [intros; eapply Superseded_parseLines_groups; eauto |].
  intros W R w h pools err h'. unfold Superseded.ListExportedZpools.
  destruct (zpoolOutput ["import"] w) as [[out [e|]] w1]; simpl.
  { intros [= <- _ _]. constructor. }
  destruct (Superseded.collect out 0 [] h) as [[pools1 h1]|] eqn:E1; [|discriminate].
  assert (no_devices_recorded pools1) as Hp1
    by (eapply Superseded_collect_groups; [|exact E1]; constructor).
  destruct (zpoolOutput ["import"; "-D"] w1) as [[out' [e|]] w2]; simpl.
  { intros [= <- _ _]. constructor. }
  match goal with
  | |- context [match ?m with Done _ => _ | IndexOutOfRange _ _ => _ end] =>
      destruct m as [tok|]; [|discriminate]
  end.
  destruct (Superseded.collect out' 0 pools1 h1) as [[pools2 h2]|] eqn:E2; [|discriminate].
  intros [= <- _ _]. eapply Superseded_collect_groups; [exact Hp1 | exact E2].
Qed.

End SupersededFacts.

(** On the tank block the earlier parser records the mirror without its
    two disks; the disks are in the object the record does not point at.
    A listing of the tank block and of a destroyed pool returns records
    whose groups are all empty. *)
Lemma Superseded_groups_have_no_devices_witness :
  (exists z' groups,
     @Superseded.parseLines SpecModel.helpers
       (Superseded.with_Name "pool:" Superseded.emptyExportedZpool) []
       (block_body Sample.tank) =
     Done (z', [mkVdevGroup (mkVdev "mirror-0" "ONLINE")
                  [mkVdev "sda" "ONLINE"; mkVdev "sdb" "ONLINE"]], 11) /\
     Superseded.Vdevs z' = [mkVdevGroup (mkVdev "mirror-0" "ONLINE") []] /\
     Superseded.Vdevs z' = [] ++ groups /\ Forall no_devices groups) /\
  (exists pools err h',
     (@Superseded.ListExportedZpools SpecModel.helpers SpecModel.tool SpecModel.runner
        (SpecModel.mkTool [(block_lines Sample.tank, None);
                           (block_lines Sample.gone, None)] []) []).1 =
     Done (pools, err, h') /\
     length pools = 2 /\ no_devices_recorded pools).
Proof.
  split.
  - assert (exists z', @Superseded.parseLines SpecModel.helpers
       (Superseded.with_Name "pool:" Superseded.emptyExportedZpool) []
       (block_body Sample.tank) =
     Done (z', [mkVdevGroup (mkVdev "mirror-0" "ONLINE")
                  [mkVdev "sda" "ONLINE"; mkVdev "sdb" "ONLINE"]], 11) /\
       Superseded.Vdevs z' = [mkVdevGroup (mkVdev "mirror-0" "ONLINE") []])
      as (z' & E & Ev) by (eexists; split; [vm_compute; reflexivity | reflexivity]).
    destruct (proj1 (@Superseded_groups_have_no_devices SpecModel.helpers) _ _ _ _ _ _ E)
      as (groups & Eg & F).
    exists z', groups. auto.
  - assert (exists pools err h',
     (@Superseded.ListExportedZpools SpecModel.helpers SpecModel.tool SpecModel.runner
        (SpecModel.mkTool [(block_lines Sample.tank, None);
                           (block_lines Sample.gone, None)] []) []).1 =
     Done (pools, err, h') /\ length pools = 2)
      as (pools & err & h' & E & El)
      by (do 3 eexists; split; [vm_compute; reflexivity | reflexivity]).
    exists pools, err, h'. split; [exact E |]. split; [exact El |].
    exact (proj2 (@Superseded_groups_have_no_devices SpecModel.helpers) _ _ _ _ _ _ _ E).
Defined.

(** * Further properties *)

(** ** The scanner of the current parser *)

Section ScannerMore.
Context `{Helpers}.

(** The count has no influence on a turn of the loop, beyond the count
    it returns. *)
Lemma body_forget_loc (s1 s2 : scan) (l : line) :
  forget_loc s1 = forget_loc s2 ->
  match body s1 l, body s2 l with
  | Done (Continue a), Done (Continue b) => forget_loc a = forget_loc b
  | Done (Return a _), Done (Return b _) => forget_loc a = forget_loc b
  | IndexOutOfRange i k, IndexOutOfRange j m => i = j /\ k = m
  | _, _ => False
  end.
Proof.
  destruct s1 as [z1 o1 cur1 af1 cf1 lc1], s2 as [z2 o2 cur2 af2 cf2 lc2].
  unfold forget_loc. simpl. intros [= -> -> -> -> ->].
  unfold body. destruct l as [|tok tail]; simpl; [reflexivity |].
  unfold mbind, outcome_bind.
  dispatch; simpl; auto; destruct cur2; reflexivity.
Qed.

Lemma loop_skips_blank (lines : list (list string)) :
  forall s1 s2,
    forget_loc s1 = forget_loc s2 ->
    match loop s1 lines, loop s2 (List.filter (fun l => negb (blank l)) lines) with
    | Done (a, _), Done (b, _) => forget_loc a = forget_loc b
    | IndexOutOfRange i k, IndexOutOfRange j m => i = j /\ k = m
    | _, _ => False
    end.
Proof.
  induction lines as [|l rest IH]; intros s1 s2 Hs; [exact Hs |].
  destruct l as [|tok tail].
  - cbn [List.filter blank negb loop body mbind outcome_bind]. apply IH.
    rewrite <- Hs. reflexivity.
  - cbn [List.filter blank negb loop]. unfold mbind, outcome_bind.
    pose proof (body_forget_loc s1 s2 (tok :: tail) Hs) as Hb.
    destruct (body s1 (tok :: tail)) as [[a|a n]|], (body s2 (tok :: tail)) as [[b|b m]|];
      try contradiction; first [apply IH; assumption | assumption].
Qed.

(** X1. Blank lines are skipped: but for the count it returns, a scan
    gives the same record and the same heap, or stops with the same panic,
    as the scan of the lines without the blank ones. *)
Theorem parseLines_skips_blank_lines (z : ExportedZpool) (h : list VdevGroup)
    (lines : list (list string)) :
  same_but_count (parseLines z h lines)
                 (parseLines z h (List.filter (fun l => negb (blank l)) lines)).
Proof.
  unfold parseLines, same_but_count, mbind, outcome_bind.
  pose proof (loop_skips_blank lines (enter z h) (enter z h) eq_refl) as Hl.
  destruct (loop (enter z h) lines) as [[a n]|],
           (loop (enter z h) (List.filter _ lines)) as [[b m]|]; try contradiction; [|exact Hl].
  simpl. unfold forget_loc in Hl. injection Hl as -> -> _ _ _. auto.
Qed.

(** X2. A scan never changes the name of the record, and it leaves a
    header field as it was when the lines hold no line of its key: [Id],
    [State] and [Status] without an [id:], [state:] or [status:] line, the
    action text without an [action:] line.  This does not depend on what
    [setString] does. *)
Theorem parseLines_absent_keys (z z' : ExportedZpool) (h h' : list VdevGroup)
    (lines : list (list string)) (n : nat) :
  parseLines z h lines = Done (z', h', n) ->
  Name z' = Name z /\
  (forall f, Forall (fun l => starts_with (key f) l = false) lines ->
             field f z' = field f z) /\
  (Forall (fun l => starts_with "action:" l = false) lines -> Action z' = Action z).
Proof.
  unfold parseLines, mbind, outcome_bind.
  destruct (loop (enter z h) lines) as [[s k]|] eqn:E; [|discriminate].
  intros [= <- _ _]. simpl. split; [|split].
  - apply (loop_Name _ _ _ _ E).
  - intros f Hf. apply (loop_field_untouched f _ _ _ _ Hf E).
  - intros Ha. apply (loop_action_kept lines (enter z h) _ _ eq_refl Ha E).
Qed.

Lemma take_next_marker (lines : list (list string)) :
  Forall (fun l => is_marker l = false) (take (next_marker lines) lines).
Proof.
  induction lines as [|l rest IH]; simpl; [constructor |].
  destruct (is_marker l) eqn:El; simpl; [constructor |].
  constructor; assumption.
Qed.

Lemma drop_next_marker (lines : list (list string)) :
  drop (next_marker lines) lines = [] \/
  exists m rest, drop (next_marker lines) lines = m :: rest /\ is_marker m = true.
Proof.
  induction lines as [|l rest IH]; simpl; [left; reflexivity |].
  destruct (is_marker l) eqn:El; simpl; [right; eauto | exact IH].
Qed.

(** X3. A scan reads no further than the next marker: the marker line
    and whatever follows it have no influence on the record, the heap, the
    count or a panic. *)
Theorem parseLines_reads_up_to_marker (z : ExportedZpool) (h : list VdevGroup)
    (lines : list (list string)) :
  parseLines z h lines = parseLines z h (take (next_marker lines) lines).
Proof.
  rewrite <- (take_drop (next_marker lines) lines) at 1.
  apply parseLines_stops_at_marker; [apply take_next_marker | apply drop_next_marker].
Qed.

Lemma grouped_devices_conserved (ls : list (list string)) :
  (grouped ls).1 ++ concat (Devices <$> (grouped ls).2) =
  vdev_of <$> List.filter (fun l => negb (group_header l)) ls.
Proof.
  induction ls as [|l ls IH]; [reflexivity |].
  cbn [grouped List.filter]. destruct (grouped ls) as [leading groups].
  cbn [fst snd] in IH.
  destruct (group_header l); cbn [negb fst snd fmap list_fmap concat Devices];
    rewrite <- IH; reflexivity.
Qed.

Lemma groups_of_block_devices (ls : list (list string)) :
  concat (Devices <$> groups_of_block ls) =
  vdev_of <$> List.filter (fun l => negb (group_header l)) ls.
Proof.
  rewrite <- grouped_devices_conserved. unfold groups_of_block.
  rewrite fmap_app, concat_app.
  destruct (grouped _) as [[|d leading] groups]; simpl; rewrite ?app_nil_r; reflexivity.
Qed.

Lemma without_devices_concat (groups : list VdevGroup) :
  concat (Devices <$> (without_devices <$> groups)) = [].
Proof. induction groups as [|g groups IH]; [reflexivity | exact IH]. Qed.

(** X5. The devices of a block all reach the group objects the scan
    allocates, none lost and none twice: when a scan returns, the device
    lists of the objects it has allocated, one after the other, are the
    devices of the structural lines that are no group headers, in input
    order.  The record has one new entry for each of these objects, and
    what the entries show of the devices depends on how [Vdevs] is read:
    read as the pointers that lines 204 and 212 append, the entries are the
    addresses of the objects; read with the element type that line 143
    declares, the entries show no device at all. *)
Theorem parseLines_conserves_devices (name : string) (lines : list (list string)) :
  let devices :=
    vdev_of <$> List.filter (fun l => negb (group_header l))
                  (structural name false false lines) in
  (forall (z z' : ExportedZpool) (h h' : list VdevGroup) (n : nat),
     Name z = name ->
     parseLines z h lines = Done (z', h', n) ->
     exists groups,
       h' = h ++ groups /\ concat (Devices <$> groups) = devices /\
       Vdevs z' = Vdevs z ++ seq (length h) (length groups)) /\
  (forall (z z' : Declared.ExportedZpool) (h h' : list VdevGroup) (n : nat),
     Declared.Name z = name ->
     Declared.parseLines z h lines = Done (z', h', n) ->
     exists groups entries,
       h' = h ++ groups /\ concat (Devices <$> groups) = devices /\
       Declared.Vdevs z' = Declared.Vdevs z ++ entries /\
       length entries = length groups /\ concat (Devices <$> entries) = []).
Proof.
  intros devices. split.
  - intros z z' h h' n <-. unfold parseLines, mbind, outcome_bind.
    destruct (loop (enter z h) lines) as [[s k]|] eqn:E; [|discriminate].
    intros [= <- <- _]. apply loop_groups in E. simpl in E. destruct E as [Eo Ev].
    eexists. split; [exact Eo |]. split; [apply groups_of_block_devices | exact Ev].
  - intros z z' h h' n <- E. apply Declared_parseLines_groups in E. cbv zeta in E.
    destruct E as [Eo Ev]. eexists _, _. split; [exact Eo |].
    split; [apply groups_of_block_devices |]. split; [exact Ev |].
    split; [apply length_fmap | apply without_devices_concat].
Qed.

End ScannerMore.

(** The tank block has no [status:] line and the scratch block no
    [action:] line: the status of the one and the action of the other
    stay empty, and both records keep the name they came with. *)
Lemma parseLines_absent_keys_witness :
  (exists z' h' n,
     @parseLines SpecModel.helpers (with_Name "tank" emptyExportedZpool) []
       (block_body Sample.tank) = Done (z', h', n) /\
     Name z' = "tank" /\ Status z' = "") /\
  (exists z' h' n,
     @parseLines SpecModel.helpers (with_Name "scratch" emptyExportedZpool) []
       (block_body Sample.scratch) = Done (z', h', n) /\
     Name z' = "scratch" /\ Action z' = "").
Proof.
  split.
  - assert (exists z' h' n,
       @parseLines SpecModel.helpers (with_Name "tank" emptyExportedZpool) []
         (block_body Sample.tank) = Done (z', h', n)) as (z' & h' & n & E)
      by (do 3 eexists; vm_compute; reflexivity).
    exists z', h', n. split; [exact E |].
    destruct (@parseLines_absent_keys SpecModel.helpers _ _ _ _ _ _ E) as (En & Ef & _).
    split; [exact En |]. apply (Ef HeaderStatus).
    repeat (apply List.Forall_cons; [reflexivity |]). apply List.Forall_nil.
  - assert (exists z' h' n,
       @parseLines SpecModel.helpers (with_Name "scratch" emptyExportedZpool) []
         (block_body Sample.scratch) = Done (z', h', n)) as (z' & h' & n & E)
      by (do 3 eexists; vm_compute; reflexivity).
    exists z', h', n. split; [exact E |].
    destruct (@parseLines_absent_keys SpecModel.helpers _ _ _ _ _ _ E) as (En & _ & Ea).
    split; [exact En |]. apply Ea.
    repeat (apply List.Forall_cons; [reflexivity |]). apply List.Forall_nil.
Defined.

(** The two disks of the tank block are in its one group object.  Read
    as pointers the record's entry is the address of that object; read with
    the declared type the entry shows neither disk. *)
Lemma parseLines_conserves_devices_witness :
  (exists z' h' n groups,
     @parseLines SpecModel.helpers (with_Name "tank" emptyExportedZpool) []
       (block_body Sample.tank) = Done (z', h', n) /\
     h' = [] ++ groups /\
     concat (Devices <$> groups) = [mkVdev "sda" "ONLINE"; mkVdev "sdb" "ONLINE"] /\
     Vdevs z' = [] ++ seq 0 (length groups)) /\
  (exists z' h' n groups entries,
     @Declared.parseLines SpecModel.helpers
       (Declared.with_Name "tank" Declared.emptyExportedZpool) []
       (block_body Sample.tank) = Done (z', h', n) /\
     h' = [] ++ groups /\
     concat (Devices <$> groups) = [mkVdev "sda" "ONLINE"; mkVdev "sdb" "ONLINE"] /\
     Declared.Vdevs z' = [] ++ entries /\
     length entries = length groups /\ concat (Devices <$> entries) = []).
Proof.
  destruct (@parseLines_conserves_devices SpecModel.helpers "tank"
              (block_body Sample.tank)) as [Tp Td].
  split.
  - assert (exists z' h' n,
       @parseLines SpecModel.helpers (with_Name "tank" emptyExportedZpool) []
         (block_body Sample.tank) = Done (z', h', n)) as (z' & h' & n & E)
      by (do 3 eexists; vm_compute; reflexivity).
    destruct (Tp (with_Name "tank" emptyExportedZpool) z' [] h' n eq_refl E)
      as (groups & Eh & Ed & Ev).
    exists z', h', n, groups. split; [exact E |]. split; [exact Eh |].
    split; [rewrite Ed; reflexivity | exact Ev].
  - assert (exists z' h' n,
       @Declared.parseLines SpecModel.helpers
         (Declared.with_Name "tank" Declared.emptyExportedZpool) []
         (block_body Sample.tank) = Done (z', h', n)) as (z' & h' & n & E)
      by (do 3 eexists; vm_compute; reflexivity).
    destruct (Td (Declared.with_Name "tank" Declared.emptyExportedZpool) z' [] h' n
                eq_refl E) as (groups & entries & Eh & Ed & Ev & El & En).
    exists z', h', n, groups, entries. split; [exact E |]. split; [exact Eh |].
    split; [rewrite Ed; reflexivity |]. auto.
Defined.

(** ** The loop of the listing *)

Section ListingMore.
Context `{Helpers}.

Lemma parseLines_Name (z z' : ExportedZpool) (h h' : list VdevGroup)
    (lines : list (list string)) (n : nat) :
  parseLines z h lines = Done (z', h', n) -> Name z' = Name z.
Proof.
  unfold parseLines, mbind, outcome_bind.
  destruct (loop (enter z h) lines) as [[s k]|] eqn:E; [|discriminate].
  intros [= <- _ _]. apply (loop_Name _ _ _ _ E).
Qed.

Lemma pool_names_skip (lines : list (list string)) :
  pool_names lines = pool_names (drop (next_marker lines) lines).
Proof.
  induction lines as [|l rest IH]; [reflexivity |].
  cbn [next_marker]. destruct (is_marker l) eqn:El; [reflexivity |].
  cbn [drop]. rewrite <- IH. unfold pool_names. cbn [omap list_omap].
  rewrite El. reflexivity.
Qed.

Lemma pool_names_cons (l : list string) (rest : list (list string)) :
  pool_names (l :: rest) =
  match (if is_marker l then l !! 1 else None) with
  | Some name => name :: pool_names rest
  | None => pool_names rest
  end.
Proof. reflexivity. Qed.

Lemma collect_names (out : list (list string)) :
  forall i pools h pools' h',
    collect out i pools h = Done (pools', h') ->
    Name <$> pools' = (Name <$> pools) ++ pool_names (drop i out).
Proof.
  intros i. remember (length out - i) as k eqn:Hk. revert i Hk.
  induction k as [k IH] using lt_wf_ind. intros i Hk pools h pools' h'.
  destruct (out !! i) as [l|] eqn:El.
  - pose proof (lookup_lt_Some _ _ _ El) as Hi.
    rewrite (collect_turn _ _ _ _ _ El), (drop_S _ _ _ El).
    unfold mbind, outcome_bind.
    destruct l as [|tok tail]; [discriminate |]. simpl.
    destruct (String.eqb tok "pool:") eqn:Et.
    + destruct tail as [|name extra]; [discriminate |]. simpl.
      destruct (parseLines _ _ _) as [[[z h1] n]|] eqn:Ep; [|discriminate]. simpl.
      intros E. apply (IH (length out - (i + n + 1))) in E; [|lia | reflexivity].
      rewrite E, fmap_app, <- app_assoc. f_equal. simpl.
      rewrite (parseLines_Name _ _ _ _ _ _ Ep). cbn [Name with_Name].
      f_equal. rewrite (pool_names_skip (drop (S i) out)), drop_drop.
      replace (i + 1) with (S i) in Ep by lia.
      rewrite <- (parseLines_count _ _ _ _ _ _ Ep).
      f_equal. f_equal. lia.
    + intros E. apply (IH (length out - (i + 1))) in E; [|lia | reflexivity].
      rewrite E. f_equal.
      replace (i + 1) with (S i) by lia. reflexivity.
  - rewrite (collect_stop _ _ _ _ El). intros [= <- _].
    rewrite drop_ge by (apply lookup_ge_None; exact El).
    rewrite app_nil_r. reflexivity.
Qed.

(** The records collected so far are carried along untouched. *)
Lemma collect_carries (out : list (list string)) :
  forall i pools h,
    collect out i pools h =
    match collect out i [] h with
    | Done (zs, h') => Done (pools ++ zs, h')
    | IndexOutOfRange j m => IndexOutOfRange j m
    end.
Proof.
  intros i. remember (length out - i) as k eqn:Hk. revert i Hk.
  induction k as [k IH] using lt_wf_ind. intros i Hk pools h.
  destruct (out !! i) as [l|] eqn:El.
  - pose proof (lookup_lt_Some _ _ _ El) as Hi.
    rewrite !(collect_turn _ _ _ _ _ El). unfold mbind, outcome_bind.
    destruct (at_index l 0) as [tok|]; [|reflexivity].
    destruct (String.eqb tok "pool:").
    + destruct (at_index l 1) as [name|]; [|reflexivity].
      destruct (parseLines _ _ _) as [[[z h1] n]|] eqn:Ep; [|reflexivity]. simpl.
      rewrite (IH (length out - (i + n + 1)) ltac:(lia) _ eq_refl (pools ++ [z])).
      rewrite (IH (length out - (i + n + 1)) ltac:(lia) _ eq_refl [z]).
      destruct (collect out (i + n + 1) [] h1) as [[zs h2]|]; [|reflexivity].
      rewrite <- app_assoc. reflexivity.
    + apply (IH (length out - (i + 1))); [lia | reflexivity].
  - rewrite !(collect_stop _ _ _ _ El), app_nil_r. reflexivity.
Qed.

Context {W : Type} `{CommandRunner W}.

(** X6. When the listing returns records, there is one for every marker
    line of the first output and then one for every marker line of the
    second, in their order, and the name of each is the second token of its
    marker line. *)
Theorem ListExportedZpools_names (w w1 w2 : W) (h h' : list VdevGroup)
    (out out' : list (list string)) (pools : list ExportedZpool) :
  zpoolOutput ["import"] w = ((out, None), w1) ->
  zpoolOutput ["import"; "-D"] w1 = ((out', None), w2) ->
  ListExportedZpools w h = (Done (pools, None, h'), w2) ->
  Name <$> pools = pool_names out ++ pool_names out'.
Proof.
  intros E1 E2. unfold ListExportedZpools. rewrite E1.
  destruct (collect out 0 [] h) as [[zs h1]|] eqn:Ec; [|discriminate].
  rewrite E2. destruct (collect out' 0 zs h1) as [[zs' h2]|] eqn:Ec'; [|discriminate].
  intros [= <- _]. apply collect_names in Ec, Ec'.
  rewrite drop_0 in Ec, Ec'. rewrite Ec', Ec. reflexivity.
Qed.

(** X8. A marker line that carries no pool name stops the listing with
    a panic: the loop reads [out[i][1]] of a line of one token. *)
Theorem ListExportedZpools_nameless_marker (w w1 : W) (h : list VdevGroup)
    (preamble rest : list (list string)) :
  zpoolOutput ["import"] w = ((preamble ++ ["pool:"] :: rest, None), w1) ->
  Forall (fun l => passed_over l = true) preamble ->
  ListExportedZpools w h = (IndexOutOfRange 1 1, w1).
Proof.
  intros E Hpre. unfold ListExportedZpools. rewrite E.
  rewrite (collect_preamble _ _ Hpre).
  rewrite (collect_turn (["pool:"] :: rest) 0 [] h ["pool:"] eq_refl). reflexivity.
Qed.

(** X9. The second output adds to the records of the first and changes
    none of them: when both calls succeed, the listing is the records of
    the first output followed by the records the second output gives by
    itself, on the heap the first left. *)
Theorem ListExportedZpools_concatenates (w w1 w2 : W) (h h1 h2 : list VdevGroup)
    (out out' : list (list string)) (zs zs' : list ExportedZpool) :
  zpoolOutput ["import"] w = ((out, None), w1) ->
  zpoolOutput ["import"; "-D"] w1 = ((out', None), w2) ->
  collect out 0 [] h = Done (zs, h1) ->
  collect out' 0 [] h1 = Done (zs', h2) ->
  ListExportedZpools w h = (Done (zs ++ zs', None, h2), w2).
Proof.
  intros E1 E2 Ec Ec'. unfold ListExportedZpools.
  rewrite E1, Ec, E2, (collect_carries out' 0 zs h1), Ec'. reflexivity.
Qed.

(** X10. Nothing to import: when every line of both outputs has a first
    token and none is the marker, the listing is empty, there is no error,
    and the heap is as it was. *)
Theorem ListExportedZpools_no_pools (w w1 w2 : W) (h : list VdevGroup)
    (out out' : list (list string)) :
  zpoolOutput ["import"] w = ((out, None), w1) ->
  zpoolOutput ["import"; "-D"] w1 = ((out', None), w2) ->
  Forall (fun l => passed_over l = true) out ->
  Forall (fun l => passed_over l = true) out' ->
  ListExportedZpools w h = (Done ([], None, h), w2).
Proof.
  intros E1 E2 Hout Hout'. unfold ListExportedZpools.
  rewrite E1, (collect_passes_over _ Hout), E2, (collect_passes_over _ Hout').
  reflexivity.
Qed.

End ListingMore.

(** A listing whose first output has a note and the tank block, the marker
    line of which carries a third token, and whose second output has the
    block of a destroyed pool. *)
Lemma ListExportedZpools_names_witness :
  exists pools h',
    @ListExportedZpools SpecModel.helpers SpecModel.tool SpecModel.runner
      (SpecModel.mkTool
         [(["some"; "note"] :: ["pool:"; "tank"; "extra"] :: block_body Sample.tank, None);
          (block_lines Sample.gone, None)] []) [] =
    (Done (pools, None, h'), SpecModel.mkTool [] [["import"]; ["import"; "-D"]]) /\
    Name <$> pools = ["tank"; "gone"].
Proof.
  assert (exists pools h',
    @ListExportedZpools SpecModel.helpers SpecModel.tool SpecModel.runner
      (SpecModel.mkTool
         [(["some"; "note"] :: ["pool:"; "tank"; "extra"] :: block_body Sample.tank, None);
          (block_lines Sample.gone, None)] []) [] =
    (Done (pools, None, h'), SpecModel.mkTool [] [["import"]; ["import"; "-D"]]))
    as (pools & h' & E) by (do 2 eexists; vm_compute; reflexivity).
  exists pools, h'. split; [exact E |].
  exact (@ListExportedZpools_names SpecModel.helpers SpecModel.tool SpecModel.runner
    (SpecModel.mkTool
       [(["some"; "note"] :: ["pool:"; "tank"; "extra"] :: block_body Sample.tank, None);
        (block_lines Sample.gone, None)] [])
    (SpecModel.mkTool [(block_lines Sample.gone, None)] [["import"]])
    (SpecModel.mkTool [] [["import"]; ["import"; "-D"]])
    [] h'
    (["some"; "note"] :: ["pool:"; "tank"; "extra"] :: block_body Sample.tank)
    (block_lines Sample.gone) pools eq_refl eq_refl E).
Defined.

(** A first output whose marker line ends after the marker. *)
Lemma ListExportedZpools_nameless_marker_witness :
  @ListExportedZpools SpecModel.helpers SpecModel.tool SpecModel.runner
    (SpecModel.mkTool
       [(["some"; "note"] :: ["pool:"] :: block_body Sample.tank, None);
        (block_lines Sample.gone, None)] []) [] =
  (IndexOutOfRange 1 1,
   SpecModel.mkTool [(block_lines Sample.gone, None)] [["import"]]).
Proof.
  apply (@ListExportedZpools_nameless_marker SpecModel.helpers SpecModel.tool
    SpecModel.runner
    (SpecModel.mkTool
       [(["some"; "note"] :: ["pool:"] :: block_body Sample.tank, None);
        (block_lines Sample.gone, None)] [])
    (SpecModel.mkTool [(block_lines Sample.gone, None)] [["import"]])
    [] [["some"; "note"]] (block_body Sample.tank) eq_refl).
  repeat (apply List.Forall_cons; [reflexivity |]). apply List.Forall_nil.
Defined.

(** The listing of the tank and scratch pools, then of a destroyed pool,
    is the two records of the first output and then the record the second
    output gives by itself. *)
Lemma ListExportedZpools_concatenates_witness :
  exists zs h1 zs' h2,
    @collect SpecModel.helpers (report [] [Sample.tank; Sample.scratch]) 0 [] [] =
      Done (zs, h1) /\
    @collect SpecModel.helpers (report [] [Sample.gone]) 0 [] h1 = Done (zs', h2) /\
    length zs = 2 /\ length zs' = 1 /\
    @ListExportedZpools SpecModel.helpers SpecModel.tool SpecModel.runner
      (SpecModel.mkTool
         [(report [] [Sample.tank; Sample.scratch], None);
          (report [] [Sample.gone], None)] []) [] =
    (Done (zs ++ zs', None, h2), SpecModel.mkTool [] [["import"]; ["import"; "-D"]]).
Proof.
  assert (exists zs h1,
    @collect SpecModel.helpers (report [] [Sample.tank; Sample.scratch]) 0 [] [] =
      Done (zs, h1) /\ length zs = 2) as (zs & h1 & E1 & L1)
    by (do 2 eexists; split; [vm_compute; reflexivity | reflexivity]).
  assert (exists zs' h2,
    @collect SpecModel.helpers (report [] [Sample.gone]) 0 [] h1 = Done (zs', h2) /\
    length zs' = 1) as (zs' & h2 & E2 & L2).
  { vm_compute in E1. injection E1 as _ <-.
    do 2 eexists; split; [vm_compute; reflexivity | reflexivity]. }
  exists zs, h1, zs', h2. repeat split; try assumption.
  exact (@ListExportedZpools_concatenates SpecModel.helpers SpecModel.tool SpecModel.runner
    (SpecModel.mkTool
       [(report [] [Sample.tank; Sample.scratch], None);
        (report [] [Sample.gone], None)] [])
    (SpecModel.mkTool [(report [] [Sample.gone], None)] [["import"]])
    (SpecModel.mkTool [] [["import"]; ["import"; "-D"]])
    [] h1 h2 (report [] [Sample.tank; Sample.scratch]) (report [] [Sample.gone])
    zs zs' eq_refl eq_refl E1 E2).
Defined.

(** Both calls answer with one line that says there is nothing to
    import. *)
Lemma ListExportedZpools_no_pools_witness :
  @ListExportedZpools SpecModel.helpers SpecModel.tool SpecModel.runner
    (SpecModel.mkTool
       [([["no"; "pools"; "available"; "to"; "import"]], None);
        ([["no"; "pools"; "available"; "to"; "import"]], None)] []) [] =
  (Done ([], None, []), SpecModel.mkTool [] [["import"]; ["import"; "-D"]]).
Proof.
  apply (@ListExportedZpools_no_pools SpecModel.helpers SpecModel.tool SpecModel.runner
    (SpecModel.mkTool
       [([["no"; "pools"; "available"; "to"; "import"]], None);
        ([["no"; "pools"; "available"; "to"; "import"]], None)] [])
    (SpecModel.mkTool [([["no"; "pools"; "available"; "to"; "import"]], None)]
         [["import"]])
    (SpecModel.mkTool [] [["import"]; ["import"; "-D"]])
    [] [["no"; "pools"; "available"; "to"; "import"]]
    [["no"; "pools"; "available"; "to"; "import"]] eq_refl eq_refl);
  repeat (apply List.Forall_cons; [reflexivity |]); apply List.Forall_nil.
Defined.

(** ** More on the earlier parser *)

Section SupersededMore.
Context `{Helpers}.

Lemma Superseded_body_control (s : Superseded.scan) (l : line) (c : Superseded.control) :
  Superseded.body s l = Done c ->
  match c with
  | Superseded.Continue s' =>
      is_marker l = false /\ Superseded.loc s' = Superseded.loc s + 1 /\
      Superseded.Name (Superseded.ez s') = Superseded.Name (Superseded.ez s)
  | Superseded.Return s' n =>
      is_marker l = true /\ n = Superseded.loc s /\
      Superseded.Name (Superseded.ez s') = Superseded.Name (Superseded.ez s)
  end.
Proof.
  unfold Superseded.body, is_marker, starts_with. destruct l as [|tok tail].
  - intros [= <-]. auto.
  - unfold mbind, outcome_bind. destruct (String.eqb tok "pool:").
    + intros [= <-]. simpl. repeat split. lia.
    + dispatch; intros [= <-]; simpl; auto.
Qed.

Lemma Superseded_loop_count (lines : list line) :
  forall s s' n,
    Superseded.loop s lines = Done (s', n) ->
    n = Superseded.loc s + next_marker lines /\
    Superseded.Name (Superseded.ez s') = Superseded.Name (Superseded.ez s).
Proof.
  induction lines as [|l rest IH]; intros s s' n; simpl.
  - intros [= <- <-]. split; [lia | reflexivity].
  - unfold mbind, outcome_bind.
    destruct (Superseded.body s l) as [c|] eqn:Eb; [|discriminate].
    apply Superseded_body_control in Eb. destruct c as [s1|s1 k].
    + destruct Eb as (-> & El & En). intros E. apply IH in E.
      destruct E as [-> E]. split; [lia | congruence].
    + destruct Eb as (-> & -> & En). intros [= <- <-]. split; [lia | exact En].
Qed.

(** Without a group, a line that is no group header leaves the record's
    groups and the heap alone, and opens no group. *)
Lemma Superseded_body_ungrouped (s : Superseded.scan) (l : line) (c : Superseded.control) :
  Superseded.curVdevGroup s = None ->
  group_header l = false ->
  Superseded.body s l = Done c ->
  let s' := match c with Superseded.Continue s' => s' | Superseded.Return s' _ => s' end in
  Superseded.curVdevGroup s' = None /\
  Superseded.objs s' = Superseded.objs s /\
  Superseded.Vdevs (Superseded.ez s') = Superseded.Vdevs (Superseded.ez s).
Proof.
  intros Ec Eg. unfold Superseded.body, group_header in *. destruct l as [|tok tail].
  - intros [= <-]. simpl. auto.
  - unfold mbind, outcome_bind. rewrite Eg. simpl. rewrite Ec.
    dispatch; intros [= <-]; simpl; auto.
Qed.

Lemma Superseded_loop_ungrouped (lines : list line) :
  Forall (fun l => group_header l = false) lines ->
  forall s s' n,
    Superseded.curVdevGroup s = None ->
    Superseded.loop s lines = Done (s', n) ->
    Superseded.objs s' = Superseded.objs s /\
    Superseded.Vdevs (Superseded.ez s') = Superseded.Vdevs (Superseded.ez s).
Proof.
  induction 1 as [|l rest Hl Hrest IH]; intros s s' n Ec; simpl.
  - intros [= <- _]. auto.
  - unfold mbind, outcome_bind.
    destruct (Superseded.body s l) as [c|] eqn:Eb; [|discriminate].
    destruct (Superseded_body_ungrouped _ _ _ Ec Hl Eb) as (Ec' & Eo & Ev).
    destruct c as [s1|s1 k].
    + intros E. destruct (IH _ _ _ Ec' E) as [Eo' Ev']. split; congruence.
    + intros [= <- _]. auto.
Qed.

Lemma Superseded_parseLines_name (z z' : Superseded.ExportedZpool)
    (h h' : list VdevGroup) (lines : list (list string)) (n : nat) :
  Superseded.parseLines z h lines = Done (z', h', n) ->
  Superseded.Name z' = Superseded.Name z.
Proof.
  unfold Superseded.parseLines, mbind, outcome_bind.
  destruct (Superseded.loop _ _) as [[s k]|] eqn:E; [|discriminate].
  intros [= <- _ _]. apply Superseded_loop_count in E. apply E.
Qed.

(** X11. The earlier [parseLines] counts as the current one does, and
    keeps the name of the record: when it returns, its count is the position
    of the first marker line, or the number of lines when there is none. *)
Theorem Superseded_parseLines_count (z z' : Superseded.ExportedZpool)
    (h h' : list VdevGroup) (lines : list (list string)) (n : nat) :
  Superseded.parseLines z h lines = Done (z', h', n) ->
  n = next_marker lines /\ Superseded.Name z' = Superseded.Name z.
Proof.
  unfold Superseded.parseLines, mbind, outcome_bind.
  destruct (Superseded.loop _ _) as [[s k]|] eqn:E; [|discriminate].
  intros [= <- _ <-]. apply Superseded_loop_count in E. exact E.
Qed.

(** X12. The earlier parser has no group for bare devices: when no line
    is the header of a group, [parseLines] adds nothing to the groups of the
    record and allocates no object, whatever device lines there are. *)
Theorem Superseded_parseLines_bare_devices (z z' : Superseded.ExportedZpool)
    (h h' : list VdevGroup) (lines : list (list string)) (n : nat) :
  Forall (fun l => group_header l = false) lines ->
  Superseded.parseLines z h lines = Done (z', h', n) ->
  Superseded.Vdevs z' = Superseded.Vdevs z /\ h' = h.
Proof.
  intros Hl. unfold Superseded.parseLines, mbind, outcome_bind.
  destruct (Superseded.loop _ _) as [[s k]|] eqn:E; [|discriminate].
  intros [= <- <- _].
  destruct (Superseded_loop_ungrouped _ Hl (Superseded.enter z h) _ _ eq_refl E)
    as [Eo Ev]. auto.
Qed.

Lemma Superseded_collect_names (out : list (list string)) :
  forall i pools h pools' h',
    Superseded.collect out i pools h = Done (pools', h') ->
    exists zs,
      pools' = pools ++ zs /\
      Forall (fun z => Superseded.Name z = "pool:" \/ z = Superseded.emptyExportedZpool) zs.
Proof.
  intros i. remember (length out - i) as k eqn:Hk. revert i Hk.
  induction k as [k IH] using lt_wf_ind. intros i Hk pools h pools' h'.
  destruct (out !! i) as [l|] eqn:El.
  - pose proof (lookup_lt_Some _ _ _ El) as Hi.
    rewrite (Superseded_collect_turn _ _ _ _ _ El). unfold mbind, outcome_bind.
    destruct (at_index l 0) as [tok|]; [|discriminate].
    destruct (String.eqb tok "pool:") eqn:Et.
    + destruct (Superseded.parseLines _ _ _) as [[[z h1] n]|] eqn:Ep; [|discriminate].
      simpl. intros E. apply (IH (length out - (i + n + 1))) in E; [|lia | reflexivity].
      destruct E as (zs & -> & F). exists (z :: zs). rewrite <- app_assoc.
      split; [reflexivity |]. constructor; [|exact F]. left.
      apply Superseded_parseLines_name in Ep. apply String.eqb_eq in Et.
      rewrite Ep, Et. reflexivity.
    + intros E. apply (IH (length out - (i + 1))) in E; [|lia | reflexivity].
      destruct E as (zs & -> & F). exists (Superseded.emptyExportedZpool :: zs).
      rewrite <- app_assoc. split; [reflexivity |]. constructor; [right; reflexivity | exact F].
  - rewrite (Superseded_collect_stop _ _ _ _ El). intros [= <- _].
    exists []. rewrite app_nil_r. auto.
Qed.

Lemma Superseded_collect_passes_over (out : list (list string)) :
  Forall (fun l => passed_over l = true) out ->
  forall pre pools h,
    Superseded.collect (pre ++ out) (length pre) pools h =
    Done (pools ++ replicate (length out) Superseded.emptyExportedZpool, h).
Proof.
  induction 1 as [|l rest Hl Hrest IH]; intros pre pools h.
  - rewrite Superseded_collect_stop, app_nil_r; [reflexivity |].
    apply lookup_ge_None. rewrite app_nil_r. lia.
  - rewrite (Superseded_collect_turn _ _ _ _ l).
    2:{ rewrite lookup_app_r, Nat.sub_diag by lia. reflexivity. }
    destruct l as [|tok tail]; [discriminate |]. simpl in Hl |- *.
    apply negb_true_iff in Hl. rewrite Hl.
    replace (pre ++ (tok :: tail) :: rest) with ((pre ++ [tok :: tail]) ++ rest)
      by (rewrite <- app_assoc; reflexivity).
    replace (length pre + 1) with (length (pre ++ [tok :: tail]))
      by (rewrite length_app; reflexivity).
    rewrite IH, <- app_assoc. reflexivity.
Qed.

Lemma Superseded_collect_markerless (out : list (list string))
    (pools : list Superseded.ExportedZpool) (h : list VdevGroup) :
  Forall (fun l => passed_over l = true) out ->
  Superseded.collect out 0 pools h =
  Done (pools ++ replicate (length out) Superseded.emptyExportedZpool, h).
Proof.
  intros Hout. exact (Superseded_collect_passes_over out Hout [] pools h).
Qed.

Context {W : Type} `{CommandRunner W}.

(** X13. The earlier listing never records the name of a pool: the
    name it gives a record is the marker token itself, so every record it
    returns is named ["pool:"] or is the empty record of a line outside the
    blocks. *)
Theorem Superseded_ListExportedZpools_names (w : W) (h h' : list VdevGroup)
    (pools : list Superseded.ExportedZpool) (err : option error) :
  (Superseded.ListExportedZpools w h).1 = Done (pools, err, h') ->
  Forall (fun z => Superseded.Name z = "pool:" \/ z = Superseded.emptyExportedZpool) pools.
Proof.
  unfold Superseded.ListExportedZpools.
  destruct (zpoolOutput ["import"] w) as [[out [e|]] w1]; simpl.
  { intros [= <- _ _]. constructor. }
  destruct (Superseded.collect out 0 [] h) as [[pools1 h1]|] eqn:E1; [|discriminate].
  destruct (zpoolOutput ["import"; "-D"] w1) as [[out' [e|]] w2]; simpl.
  { intros [= <- _ _]. constructor. }
  match goal with
  | |- context [match ?m with Done _ => _ | IndexOutOfRange _ _ => _ end] =>
      destruct m as [tok|]; [|discriminate]
  end.
  destruct (Superseded.collect out' 0 pools1 h1) as [[pools2 h2]|] eqn:E2; [|discriminate].
  intros [= <- _ _].
  apply Superseded_collect_names in E1, E2.
  destruct E1 as (a & -> & Fa), E2 as (b & -> & Fb).
  apply Forall_app. split; [exact Fa | exact Fb].
Qed.

(** X14. Nothing to import, in the earlier listing: when every line of
    both outputs has a first token and none is the marker, and the second
    output has a line, the listing holds one empty record for every line of
    the two outputs. *)
Theorem Superseded_ListExportedZpools_no_pools (w w1 w2 : W) (h : list VdevGroup)
    (out out' : list (list string)) :
  zpoolOutput ["import"] w = ((out, None), w1) ->
  zpoolOutput ["import"; "-D"] w1 = ((out', None), w2) ->
  Forall (fun l => passed_over l = true) out ->
  Forall (fun l => passed_over l = true) out' ->
  out' <> [] ->
  Superseded.ListExportedZpools w h =
  (Done (replicate (length out + length out') Superseded.emptyExportedZpool, None, h), w2).
Proof.
  intros E1 E2 Hout Hout' Hne. unfold Superseded.ListExportedZpools.
  rewrite E1, (Superseded_collect_markerless _ _ _ Hout), E2.
  rewrite (Superseded_collect_markerless _ _ _ Hout'), app_nil_l, <- replicate_add.
  destruct out' as [|[|tok tail] rest]; [congruence | | reflexivity].
  inversion Hout' as [|? ? Hl]. discriminate.
Qed.

(** X15. An empty output of the second call stops the earlier listing
    with a panic, whatever the first output gave: the first token of the
    first line is logged before the loop. *)
Theorem Superseded_ListExportedZpools_empty_output (w w1 w2 : W) (h h1 : list VdevGroup)
    (out : list (list string)) (pools : list Superseded.ExportedZpool) :
  zpoolOutput ["import"] w = ((out, None), w1) ->
  Superseded.collect out 0 [] h = Done (pools, h1) ->
  zpoolOutput ["import"; "-D"] w1 = (([], None), w2) ->
  Superseded.ListExportedZpools w h = (IndexOutOfRange 0 0, w2).
Proof.
  intros E1 Ec E2. unfold Superseded.ListExportedZpools.
  rewrite E1, Ec, E2. reflexivity.
Qed.

End SupersededMore.

(** The lines of the tank block followed by the scratch block: the count
    is 11, the number of lines of the tank block after its marker. *)
Lemma Superseded_parseLines_count_witness :
  exists z' h',
    @Superseded.parseLines SpecModel.helpers
      (Superseded.with_Name "pool:" Superseded.emptyExportedZpool) []
      (block_body Sample.tank ++ block_lines Sample.scratch) = Done (z', h', 11) /\
    11 = next_marker (block_body Sample.tank ++ block_lines Sample.scratch) /\
    Superseded.Name z' = "pool:".
Proof.
  assert (exists z' h',
    @Superseded.parseLines SpecModel.helpers
      (Superseded.with_Name "pool:" Superseded.emptyExportedZpool) []
      (block_body Sample.tank ++ block_lines Sample.scratch) = Done (z', h', 11))
    as (z' & h' & E) by (do 2 eexists; vm_compute; reflexivity).
  exists z', h'. split; [exact E |].
  exact (@Superseded_parseLines_count SpecModel.helpers _ _ _ _ _ _ E).
Defined.

(** The two bare disks of the scratch block leave no trace: no group in
    the record, no object on the heap. *)
Lemma Superseded_parseLines_bare_devices_witness :
  exists z' h' n,
    @Superseded.parseLines SpecModel.helpers
      (Superseded.with_Name "pool:" Superseded.emptyExportedZpool) []
      (block_body Sample.scratch) = Done (z', h', n) /\
    Superseded.Vdevs z' = [] /\ h' = [].
Proof.
  assert (exists z' h' n,
    @Superseded.parseLines SpecModel.helpers
      (Superseded.with_Name "pool:" Superseded.emptyExportedZpool) []
      (block_body Sample.scratch) = Done (z', h', n))
    as (z' & h' & n & E) by (do 3 eexists; vm_compute; reflexivity).
  exists z', h', n. split; [exact E |].
  apply (@Superseded_parseLines_bare_devices SpecModel.helpers
    (Superseded.with_Name "pool:" Superseded.emptyExportedZpool) z' [] h'
    (block_body Sample.scratch) n); [|exact E].
  repeat (apply List.Forall_cons; [reflexivity |]). apply List.Forall_nil.
Defined.

(** The earlier listing of the tank block and of a destroyed pool: two
    records, both named ["pool:"]. *)
Lemma Superseded_ListExportedZpools_names_witness :
  exists pools h',
    (@Superseded.ListExportedZpools SpecModel.helpers SpecModel.tool SpecModel.runner
       (SpecModel.mkTool [(block_lines Sample.tank, None);
                          (block_lines Sample.gone, None)] []) []).1 =
    Done (pools, None, h') /\
    Superseded.Name <$> pools = ["pool:"; "pool:"] /\
    Forall (fun z => Superseded.Name z = "pool:" \/ z = Superseded.emptyExportedZpool) pools.
Proof.
  assert (exists pools h',
    (@Superseded.ListExportedZpools SpecModel.helpers SpecModel.tool SpecModel.runner
       (SpecModel.mkTool [(block_lines Sample.tank, None);
                          (block_lines Sample.gone, None)] []) []).1 =
    Done (pools, None, h') /\ Superseded.Name <$> pools = ["pool:"; "pool:"])
    as (pools & h' & E & En)
    by (do 2 eexists; split; [vm_compute; reflexivity | reflexivity]).
  exists pools, h'. split; [exact E |]. split; [exact En |].
  exact (@Superseded_ListExportedZpools_names SpecModel.helpers SpecModel.tool
    SpecModel.runner _ _ _ _ _ E).
Defined.

(** Both calls answer with one line that says there is nothing to
    import: the earlier listing returns two empty records. *)
Lemma Superseded_ListExportedZpools_no_pools_witness :
  @Superseded.ListExportedZpools SpecModel.helpers SpecModel.tool SpecModel.runner
    (SpecModel.mkTool
       [([["no"; "pools"; "available"; "to"; "import"]], None);
        ([["no"; "pools"; "available"; "to"; "import"]], None)] []) [] =
  (Done ([Superseded.emptyExportedZpool; Superseded.emptyExportedZpool], None, []),
   SpecModel.mkTool [] [["import"]; ["import"; "-D"]]).
Proof.
  apply (@Superseded_ListExportedZpools_no_pools SpecModel.helpers SpecModel.tool
    SpecModel.runner
    (SpecModel.mkTool
       [([["no"; "pools"; "available"; "to"; "import"]], None);
        ([["no"; "pools"; "available"; "to"; "import"]], None)] [])
    (SpecModel.mkTool [([["no"; "pools"; "available"; "to"; "import"]], None)]
         [["import"]])
    (SpecModel.mkTool [] [["import"]; ["import"; "-D"]])
    [] [["no"; "pools"; "available"; "to"; "import"]]
    [["no"; "pools"; "available"; "to"; "import"]] eq_refl eq_refl);
  first [ discriminate
        | repeat (apply List.Forall_cons; [reflexivity |]); apply List.Forall_nil ].
Defined.

(** The first call lists the tank pool, the second prints nothing. *)
Lemma Superseded_ListExportedZpools_empty_output_witness :
  @Superseded.ListExportedZpools SpecModel.helpers SpecModel.tool SpecModel.runner
    (SpecModel.mkTool [(block_lines Sample.tank, None); ([], None)] []) [] =
  (IndexOutOfRange 0 0, SpecModel.mkTool [] [["import"]; ["import"; "-D"]]).
Proof.
  assert (exists pools h1,
    @Superseded.collect SpecModel.helpers (block_lines Sample.tank) 0 [] [] =
    Done (pools, h1)) as (pools & h1 & E)
    by (do 2 eexists; vm_compute; reflexivity).
  exact (@Superseded_ListExportedZpools_empty_output SpecModel.helpers SpecModel.tool
    SpecModel.runner
    (SpecModel.mkTool [(block_lines Sample.tank, None); ([], None)] [])
    (SpecModel.mkTool [([], None)] [["import"]])
    (SpecModel.mkTool [] [["import"]; ["import"; "-D"]])
    [] h1 (block_lines Sample.tank) pools eq_refl E eq_refl).
Defined.

(** ** Attached pools *)

Section PoolFacts.
Context `{PoolHelpers} {W : Type} `{CommandRunner W}.

Lemma GetZpool_returns (name : string) (w : W) :
  match (GetZpool name w).1 with
  | Done (Some _, None) | Done (None, Some _) => True
  | Done _ => False
  | IndexOutOfRange _ _ => True
  end.
Proof.
  unfold GetZpool.
  destruct (zpoolOutput (zpoolArgs ++ [name]) w) as [[out [e|]] w1]; [exact I |].
  destruct (parseLine_all (newZpool name) out) as [[z [e|]]|]; try exact I.
  destruct (zpoolOutput (zpoolVdevArgs ++ [name]) w1) as [[out' [e|]] w2]; [exact I |].
  destruct (parseVdevs z out') as [[z' [e|]]|]; exact I.
Qed.

Lemma ListZpools_loop_returns (out : list (list string)) :
  forall pools w,
    Forall is_Some pools ->
    match (ListZpools_loop out pools w).1 with
    | Done (ps, Some _) => ps = []
    | Done (ps, None) => Forall is_Some ps /\ length ps = length pools + length out
    | IndexOutOfRange _ _ => True
    end.
Proof.
  induction out as [|l rest IH]; intros pools w Hp; simpl.
  - split; [exact Hp | lia].
  - destruct (at_index l 0) as [name|]; [|exact I].
    pose proof (GetZpool_returns name w) as G.
    destruct (GetZpool name w) as [[[[z|] [e|]]|] w']; simpl in G |- *;
      try contradiction; try exact I; try reflexivity.
    specialize (IH (pools ++ [Some z]) w').
    destruct (ListZpools_loop rest (pools ++ [Some z]) w') as [[[ps [e|]]|] w'']; simpl in *.
    + apply IH. apply Forall_app. split; [exact Hp | repeat constructor; eauto].
    + rewrite length_app in IH. simpl in IH.
      destruct IH as [F L]; [apply Forall_app; split; [exact Hp | repeat constructor; eauto] |].
      split; [exact F | lia].
    + exact I.
Qed.

(** X16. [GetZpool] returns a pool or an error, never both and never
    neither: every [return] of the function hands out [nil] with an error,
    or the pool with no error. *)
Theorem GetZpool_pool_or_error (name : string) (w : W)
    (z : option Zpool) (err : option error) :
  (GetZpool name w).1 = Done (z, err) ->
  (is_Some z <-> err = None) /\ (z = None <-> is_Some err).
Proof.
  intros E. pose proof (GetZpool_returns name w) as G. rewrite E in G.
  destruct z as [z|], err as [e|]; try contradiction;
    split; split; intros E';
    first [ reflexivity | discriminate | solve [eauto]
          | exfalso; exact (is_Some_None E') ].
Qed.

(** X17. [ListZpools] returns all the pools or none: with an error the
    slice is empty, and without one it holds a pool for every line of the
    output of [zpool list -Ho name], none of them [nil]. *)
Theorem ListZpools_all_or_nothing (w : W)
    (pools : list (option Zpool)) (err : option error) :
  (ListZpools w).1 = Done (pools, err) ->
  match err with
  | Some _ => pools = []
  | None =>
      Forall is_Some pools /\
      length pools = length (zpoolOutput ["list"; "-Ho"; "name"] w).1.1
  end.
Proof.
  unfold ListZpools.
  destruct (zpoolOutput ["list"; "-Ho"; "name"] w) as [[out [e|]] w1]; simpl.
  { intros [= <- <-]. reflexivity. }
  pose proof (ListZpools_loop_returns out [] w1 (List.Forall_nil _)) as L.
  intros E. rewrite E in L. destruct err as [e|]; exact L.
Qed.

(** X18. [ListZpools] reads the first token of every line: when the
    output starts with a blank line, it panics before any pool is
    fetched. *)
Theorem ListZpools_blank_line (w w1 : W) (rest : list (list string)) :
  zpoolOutput ["list"; "-Ho"; "name"] w = (([] :: rest, None), w1) ->
  ListZpools w = (IndexOutOfRange 0 0, w1).
Proof.
  intros E. unfold ListZpools. rewrite E. reflexivity.
Qed.

End PoolFacts.

(** A tool that answers both calls returns the pool; a tool that cannot
    be run returns the error. *)
Lemma GetZpool_pool_or_error_witness :
  (exists z,
     (@GetZpool SamplePools.helpers SpecModel.tool SpecModel.runner "tank"
        (SpecModel.mkTool [([["tank"; "ONLINE"]], None); ([["mirror-0"]], None)] [])).1 =
     Done (Some z, None) /\
     (is_Some (Some z) <-> @None error = None)) /\
  (exists e,
     (@GetZpool SamplePools.helpers SpecModel.tool SpecModel.runner "tank"
        (SpecModel.mkTool [] [])).1 = Done (None, Some e) /\
     (@None Zpool = None <-> is_Some (Some e))).
Proof.
  split.
  - exists (newZpool "tank").
    assert ((@GetZpool SamplePools.helpers SpecModel.tool SpecModel.runner "tank"
        (SpecModel.mkTool [([["tank"; "ONLINE"]], None); ([["mirror-0"]], None)] [])).1 =
      Done (Some (newZpool "tank"), None)) as E by reflexivity.
    split; [exact E |].
    exact (proj1 (@GetZpool_pool_or_error SamplePools.helpers SpecModel.tool
      SpecModel.runner _ _ _ _ E)).
  - exists "exit status 1"%string.
    assert ((@GetZpool SamplePools.helpers SpecModel.tool SpecModel.runner "tank"
        (SpecModel.mkTool [] [])).1 = Done (None, Some "exit status 1"%string)) as E
      by reflexivity.
    split; [exact E |].
    exact (proj2 (@GetZpool_pool_or_error SamplePools.helpers SpecModel.tool
      SpecModel.runner _ _ _ _ E)).
Defined.

(** Two names listed and both pools fetched: two pools.  Two names
    listed and the tool gone after the first pool: no pool, and the error. *)
Lemma ListZpools_all_or_nothing_witness :
  (exists pools,
     (@ListZpools SamplePools.helpers SpecModel.tool SpecModel.runner
        (SpecModel.mkTool
           [([["tank"]; ["scratch"]], None);
            ([], None); ([], None); ([], None); ([], None)] [])).1 =
     Done (pools, None) /\
     Forall is_Some pools /\ length pools = 2) /\
  (exists pools e,
     (@ListZpools SamplePools.helpers SpecModel.tool SpecModel.runner
        (SpecModel.mkTool
           [([["tank"]; ["scratch"]], None); ([], None); ([], None)] [])).1 =
     Done (pools, Some e) /\
     pools = []).
Proof.
  split.
  - assert (exists pools,
      (@ListZpools SamplePools.helpers SpecModel.tool SpecModel.runner
         (SpecModel.mkTool
            [([["tank"]; ["scratch"]], None);
             ([], None); ([], None); ([], None); ([], None)] [])).1 =
      Done (pools, None)) as (pools & E) by (eexists; vm_compute; reflexivity).
    exists pools. split; [exact E |].
    exact (@ListZpools_all_or_nothing SamplePools.helpers SpecModel.tool SpecModel.runner
      _ _ _ E).
  - assert (exists pools e,
      (@ListZpools SamplePools.helpers SpecModel.tool SpecModel.runner
         (SpecModel.mkTool
            [([["tank"]; ["scratch"]], None); ([], None); ([], None)] [])).1 =
      Done (pools, Some e)) as (pools & e & E) by (do 2 eexists; vm_compute; reflexivity).
    exists pools, e. split; [exact E |].
    exact (@ListZpools_all_or_nothing SamplePools.helpers SpecModel.tool SpecModel.runner
      _ _ _ E).
Defined.

(** The list of names starts with a blank line. *)
Lemma ListZpools_blank_line_witness :
  @ListZpools SamplePools.helpers SpecModel.tool SpecModel.runner
    (SpecModel.mkTool [([] :: [["tank"]], None); ([], None); ([], None)] []) =
  (IndexOutOfRange 0 0,
   SpecModel.mkTool [([], None); ([], None)] [["list"; "-Ho"; "name"]]).
Proof.
  exact (@ListZpools_blank_line SamplePools.helpers SpecModel.tool SpecModel.runner
    (SpecModel.mkTool [([] :: [["tank"]], None); ([], None); ([], None)] [])
    (SpecModel.mkTool [([], None); ([], None)] [["list"; "-Ho"; "name"]])
    [["tank"]] eq_refl).
Defined.
